(** * tscircuit/dependency-check: the dependency policy checker

    A shallow embedding of [src/dependency-check.ts] and the properties its
    specification states about it.

    Conventions of the embedding.
    - A JavaScript string is a [string]: the sequence of its characters, a
      name outside ASCII being the sequence of its UTF-8 bytes.  Searching
      for an ASCII pattern gives the same answer on either reading.
    - [toLowerCase] maps the ASCII capitals and leaves every other character
      alone.  The only characters outside ASCII whose lowercase form holds an
      ASCII letter are U+0130 (an [i] followed by a combining dot) and U+212A
      (a [k]); neither can complete the marker ["circuit"], so the test
      [toLowerCase().includes("circuit")] is the one the source performs.
    - An object that maps names to versions is the list of its entries in the
      order [Object.entries] enumerates them.
    - [fs.readFileSync] and [JSON.parse] are parameters of the checker: each
      returns a value or throws an [Error].  [main] takes [path.join],
      [JSON.stringify] and the outcome of [process.cwd] as parameters too,
      and returns what it writes together with the exit status. *)

From Stdlib Require Import Bool List Arith Lia NArith.
From Stdlib Require Import Strings.Ascii Strings.String.
Import ListNotations.

Open Scope string_scope.
Open Scope list_scope.

(** ** JavaScript string and array primitives *)

Module Js.

(** The character U+0022, which the message templates put around a name. *)
Definition dquote : string := String "034"%char EmptyString.

(** [String.prototype.startsWith(searchString)]. *)
Definition startsWith (s searchString : string) : bool :=
  String.prefix searchString s.

(** [String.prototype.includes(searchString)]: the pattern starts at some
    position of [s]. *)
Fixpoint includes (s searchString : string) : bool :=
  String.prefix searchString s
  || match s with
     | EmptyString => false
     | String _ rest => includes rest searchString
     end.

Definition lower_ascii (c : ascii) : ascii :=
  let n := N_of_ascii c in
  if ((65 <=? n) && (n <=? 90))%N then ascii_of_N (n + 32) else c.

(** [String.prototype.toLowerCase()]. *)
Fixpoint toLowerCase (s : string) : string :=
  match s with
  | EmptyString => EmptyString
  | String c rest => String (lower_ascii c) (toLowerCase rest)
  end.

(** [Array.prototype.includes] on an array of strings. *)
Definition array_includes (xs : list string) (x : string) : bool :=
  existsb (String.eqb x) xs.

(** A thrown [Error]; the checker reads only its [message]. *)
Record Error : Type := mkError { message : string }.

(** [process.env]: a variable is unset ([None], JavaScript's [undefined]) or
    holds a string. *)
Definition Env : Type := string -> option string.

(** [process.env.X || fallback] on strings: unset and empty are both falsy. *)
Definition or_default (v : option string) (fallback : string) : string :=
  match v with
  | None => fallback
  | Some "" => fallback
  | Some s => s
  end.

End Js.

(** ** The checker's data *)

(** [INTERNAL_PACKAGE_LIST]. *)
Definition INTERNAL_PACKAGE_LIST : list string := ["schematic-symbols"].

(** [interface CheckOptions].  The TypeScript type of [package_type] is a
    union of two literals, but [main] casts the raw environment string to it,
    so at run time it is any string.  The two array fields are optional. *)
Record CheckOptions : Type := mkOptions {
  package_type : string;
  peer_deps_should_be_asterisk : bool;
  additional_internal_modules : option (list string);
  ignore_packages : option (list string)
}.

Definition defaultOptions : CheckOptions :=
  {| package_type := "internal_lib";
     peer_deps_should_be_asterisk := true;
     additional_internal_modules := Some [];
     ignore_packages := Some [] |}.

(** [isInternalModule(packageName, additionalModules = [])]: the default
    value replaces an argument that is [undefined]. *)
Definition isInternalModule (packageName : string)
    (additionalModules : option (list string)) : bool :=
  let additionalModules :=
    match additionalModules with Some l => l | None => [] end in
  if Js.array_includes INTERNAL_PACKAGE_LIST packageName then true
  else if Js.startsWith packageName "@tscircuit/" then true
  else if Js.includes (Js.toLowerCase packageName) "circuit" then true
  else if Js.array_includes additionalModules packageName then true
  else false.

(** The classifier with the prefix test of lines 41-44 taken out. *)
Definition isInternalModule_without_prefix_rule (packageName : string)
    (additionalModules : option (list string)) : bool :=
  let additionalModules :=
    match additionalModules with Some l => l | None => [] end in
  if Js.array_includes INTERNAL_PACKAGE_LIST packageName then true
  else if Js.includes (Js.toLowerCase packageName) "circuit" then true
  else if Js.array_includes additionalModules packageName then true
  else false.

(** The classifier as the specification's testable property words it: the
    lowercased name contains the marker. *)
Definition contains_circuit (n : string) : bool :=
  Js.includes (Js.toLowerCase n) "circuit".

(** The parsed [package.json], read at the shape the interface documents: an
    object whose three dependency fields are each absent ([None], JavaScript's
    [undefined]) or an object from package names to version strings. *)
Definition Entries : Type := list (string * string).

Record PackageJson : Type := mkPackageJson {
  dependencies : option Entries;
  peerDependencies : option Entries;
  devDependencies : option Entries
}.

(** The object [checkDependencies] returns, and mutates while it runs. *)
Record Result : Type := mkResult {
  success : bool;
  errors : list string
}.

(** ** Messages *)

(** The template literal of lines 89-91. *)
Definition dependency_in_internal_lib (dep : string) : string :=
  "Internal module " ++ Js.dquote ++ dep ++ Js.dquote
  ++ " found in dependencies. It should be in peerDependencies or devDependencies.".

(** The template literal of lines 104-106. *)
Definition peer_not_asterisk (dep : string) : string :=
  "Internal module " ++ Js.dquote ++ dep ++ Js.dquote
  ++ " in peerDependencies should use " ++ Js.dquote ++ "*" ++ Js.dquote
  ++ " as version.".

(** The template literal of lines 118-120. *)
Definition dependency_in_bundled_lib (dep : string) : string :=
  "Internal module " ++ Js.dquote ++ dep ++ Js.dquote
  ++ " found in dependencies. Bundled libs cannot have internal dependencies.".

(** The template literal of lines 130-132. *)
Definition peer_in_bundled_lib (dep : string) : string :=
  "Internal module " ++ Js.dquote ++ dep ++ Js.dquote
  ++ " found in peerDependencies. Bundled libs cannot have internal peer dependencies.".

(** The template literal of lines 138-140, in the [catch] block. *)
Definition read_or_parse_failure (error : Js.Error) : string :=
  "Error reading or parsing package.json: " ++ Js.message error.

(** ** The checker *)

(** [result.success = false; result.errors.push(message)]. *)
Definition report (message : string) (result : Result) : Result :=
  {| success := false; errors := errors result ++ [message] |}.

(** [!options.ignore_packages?.includes(dep)]: with the field absent the
    optional call yields [undefined], whose negation is [true]. *)
Definition not_ignored (options : CheckOptions) (dep : string) : bool :=
  match ignore_packages options with
  | None => true
  | Some l => negb (Js.array_includes l dep)
  end.

(** [for (const [dep, version] of Object.entries(obj)) body]. *)
Definition for_entries (body : string -> string -> Result -> Result)
    (obj : Entries) (result : Result) : Result :=
  fold_left (fun result entry => body (fst entry) (snd entry) result)
            obj result.

(** The destructuring default [= {}] of lines 74-78. *)
Definition or_empty (field : option Entries) : Entries :=
  match field with Some obj => obj | None => [] end.

(** Lines 73-135: the part of the [try] block that follows the parse. *)
Definition check_package (packageJson : PackageJson) (options : CheckOptions)
    (result : Result) : Result :=
  let dependencies := or_empty (dependencies packageJson) in
  let peerDependencies := or_empty (peerDependencies packageJson) in
  let devDependencies := or_empty (devDependencies packageJson) in
  if package_type options =? "internal_lib" then
    let result :=
      for_entries (fun dep version result =>
        if isInternalModule dep (additional_internal_modules options)
           && not_ignored options dep
        then report (dependency_in_internal_lib dep) result
        else result) dependencies result in
    if peer_deps_should_be_asterisk options then
      for_entries (fun dep version result =>
        if isInternalModule dep (additional_internal_modules options)
           && negb (version =? "*")
           && not_ignored options dep
        then report (peer_not_asterisk dep) result
        else result) peerDependencies result
    else result
  else if package_type options =? "bundled_lib" then
    let result :=
      for_entries (fun dep version result =>
        if isInternalModule dep (additional_internal_modules options)
           && not_ignored options dep
        then report (dependency_in_bundled_lib dep) result
        else result) dependencies result in
    for_entries (fun dep version result =>
      if isInternalModule dep (additional_internal_modules options)
         && not_ignored options dep
      then report (peer_in_bundled_lib dep) result
      else result) peerDependencies result
  else result.

Section Runtime.

(** [fs.readFileSync(path, "utf-8")]: the file's text, or a thrown error. *)
Variable readFileSync : string -> Js.Error + string.

(** [JSON.parse(text)]: the parsed manifest, or a thrown error. *)
Variable JSON_parse : string -> Js.Error + PackageJson.

(** [checkDependencies(packageJsonPath, options)], lines 62-144.  Both
    calls that can throw stand at the head of the [try] block, so the
    handler runs on the result object as it was created. *)
Definition checkDependencies (packageJsonPath : string)
    (options : CheckOptions) : Result :=
  let result := {| success := true; errors := [] |} in
  match readFileSync packageJsonPath with
  | inl error => report (read_or_parse_failure error) result
  | inr packageJsonContent =>
      match JSON_parse packageJsonContent with
      | inl error => report (read_or_parse_failure error) result
      | inr packageJson => check_package packageJson options result
      end
  end.

End Runtime.

(** ** Configuration read by [main] *)

(** Lines 150-151. *)
Definition packageType (env : Js.Env) : string :=
  Js.or_default (env "INPUT_PACKAGE_TYPE") (package_type defaultOptions).

(** Lines 152-154:
    [process.env.INPUT_PEER_DEPS_SHOULD_BE_ASTERISK === "true" ||
     defaultOptions.peer_deps_should_be_asterisk]. *)
Definition peerDepsAsterisk (env : Js.Env) : bool :=
  match env "INPUT_PEER_DEPS_SHOULD_BE_ASTERISK" with
  | Some s => s =? "true"
  | None => false
  end
  || peer_deps_should_be_asterisk defaultOptions.

(** The parsing rule of the interface table: true iff the variable holds
    exactly ["true"]. *)
Definition parses_as_true (v : option string) : bool :=
  match v with
  | Some s => s =? "true"
  | None => false
  end.

(** An environment in which only the asterisk input is set. *)
Definition env_with_asterisk_input (value : string) : Js.Env :=
  fun name =>
    if name =? "INPUT_PEER_DEPS_SHOULD_BE_ASTERISK" then Some value else None.

(** ** Concrete manifests and runtimes used in the examples *)

(** A file system with no file at any path. *)
Definition no_such_file : string -> Js.Error + string :=
  fun path =>
    inl (Js.mkError ("ENOENT: no such file or directory, open '" ++ path ++ "'")).

(** A file system that holds one text at every path. *)
Definition file_with (text : string) : string -> Js.Error + string :=
  fun _ => inr text.

(** A parser that yields the given manifest. *)
Definition parses_to (packageJson : PackageJson)
  : string -> Js.Error + PackageJson :=
  fun _ => inr packageJson.

(** A parser that rejects every text. *)
Definition rejects_all : string -> Js.Error + PackageJson :=
  fun _ => inl (Js.mkError "JSON Parse error: Unexpected identifier").

(** [checkDependencies] on a file that reads and parses to [packageJson]. *)
Definition check_manifest (packageJson : PackageJson) (options : CheckOptions)
  : Result :=
  checkDependencies (file_with "{}") (parses_to packageJson)
                    "package.json" options.

Definition internal_lib_options : CheckOptions := defaultOptions.

Definition bundled_lib_options : CheckOptions :=
  {| package_type := "bundled_lib";
     peer_deps_should_be_asterisk := true;
     additional_internal_modules := Some [];
     ignore_packages := Some [] |}.

(** ** The policy of section 4.2, rule by rule *)

(** The four rules that can emit a violation. *)
Inductive Rule : Type :=
  | InternalLibDependency
  | InternalLibPeerVersion
  | BundledLibDependency
  | BundledLibPeer.

Definition rule_message (rule : Rule) (dep : string) : string :=
  match rule with
  | InternalLibDependency => dependency_in_internal_lib dep
  | InternalLibPeerVersion => peer_not_asterisk dep
  | BundledLibDependency => dependency_in_bundled_lib dep
  | BundledLibPeer => peer_in_bundled_lib dep
  end.

(** [msg] is a violation reported about the package [name]. *)
Definition violation_about (name msg : string) : Prop :=
  exists rule, msg = rule_message rule name.

(** What every message has before the name, and what each rule puts after. *)
Definition message_head : string := "Internal module " ++ Js.dquote.

Definition message_tail (rule : Rule) : string :=
  match rule with
  | InternalLibDependency =>
      Js.dquote
      ++ " found in dependencies. It should be in peerDependencies or devDependencies."
  | InternalLibPeerVersion =>
      Js.dquote ++ " in peerDependencies should use " ++ Js.dquote ++ "*"
      ++ Js.dquote ++ " as version."
  | BundledLibDependency =>
      Js.dquote
      ++ " found in dependencies. Bundled libs cannot have internal dependencies."
  | BundledLibPeer =>
      Js.dquote
      ++ " found in peerDependencies. Bundled libs cannot have internal peer dependencies."
  end.

(** The messages of the entries of [obj] that [offending] selects, in the
    order of [obj]. *)
Definition violations (offending : string -> string -> bool)
    (message : string -> string) (obj : Entries) : list string :=
  map (fun entry => message (fst entry))
      (filter (fun entry => offending (fst entry) (snd entry)) obj).

(** An internal package that the ignore list does not exempt. *)
Definition internal_and_checked (options : CheckOptions) (dep : string)
  : bool :=
  isInternalModule dep (additional_internal_modules options)
  && not_ignored options dep.

Definition dependency_violations (options : CheckOptions) (obj : Entries)
  : list string :=
  if package_type options =? "internal_lib" then
    violations (fun dep _ => internal_and_checked options dep)
               dependency_in_internal_lib obj
  else if package_type options =? "bundled_lib" then
    violations (fun dep _ => internal_and_checked options dep)
               dependency_in_bundled_lib obj
  else [].

Definition peer_violations (options : CheckOptions) (obj : Entries)
  : list string :=
  if package_type options =? "internal_lib" then
    if peer_deps_should_be_asterisk options then
      violations (fun dep version =>
                    isInternalModule dep (additional_internal_modules options)
                    && negb (version =? "*")
                    && not_ignored options dep)
                 peer_not_asterisk obj
    else []
  else if package_type options =? "bundled_lib" then
    violations (fun dep _ => internal_and_checked options dep)
               peer_in_bundled_lib obj
  else [].

(** Sample data for the examples. *)
Definition sample_manifest : PackageJson :=
  {| dependencies := Some [("@tscircuit/core", "1.0.0"); ("react", "18.0.0")];
     peerDependencies :=
       Some [("circuit-json", "^1.0.0"); ("@tscircuit/props", "*")];
     devDependencies := Some [("typescript", "5.0.0")] |}.

(** The same manifest with an internal package among [devDependencies]. *)
Definition sample_manifest_with_internal_dev : PackageJson :=
  {| dependencies := dependencies sample_manifest;
     peerDependencies := peerDependencies sample_manifest;
     devDependencies := Some [("@tscircuit/eval", "0.0.1")] |}.

Definition unknown_type_options : CheckOptions :=
  {| package_type := "application";
     peer_deps_should_be_asterisk := true;
     additional_internal_modules := Some [];
     ignore_packages := Some [] |}.

Definition ignoring_core_options : CheckOptions :=
  {| package_type := "internal_lib";
     peer_deps_should_be_asterisk := true;
     additional_internal_modules := Some [];
     ignore_packages := Some ["@tscircuit/core"] |}.

(** The result object as line 66 creates it. *)
Definition fresh_result : Result := {| success := true; errors := [] |}.

(** ** Variations of the options and of the manifest *)

(** [{ ...options, package_type }]. *)
Definition with_package_type (type : string) (options : CheckOptions)
  : CheckOptions :=
  {| package_type := type;
     peer_deps_should_be_asterisk := peer_deps_should_be_asterisk options;
     additional_internal_modules := additional_internal_modules options;
     ignore_packages := ignore_packages options |}.

(** [{ ...options, ignore_packages }]. *)
Definition with_ignore_packages (ignored : option (list string))
    (options : CheckOptions) : CheckOptions :=
  {| package_type := package_type options;
     peer_deps_should_be_asterisk := peer_deps_should_be_asterisk options;
     additional_internal_modules := additional_internal_modules options;
     ignore_packages := ignored |}.

(** [{ ...options, additional_internal_modules }]. *)
Definition with_additional_internal_modules (extra : option (list string))
    (options : CheckOptions) : CheckOptions :=
  {| package_type := package_type options;
     peer_deps_should_be_asterisk := peer_deps_should_be_asterisk options;
     additional_internal_modules := extra;
     ignore_packages := ignore_packages options |}.

(** An optional array read as the array it stands for. *)
Definition or_nil (field : option (list string)) : list string :=
  match field with Some l => l | None => [] end.

(** The names an object declares. *)
Definition keys (obj : Entries) : list string := map fst obj.

(** The entries of the two objects the rules read. *)
Definition checked_entries (packageJson : PackageJson) : Entries :=
  or_empty (dependencies packageJson)
  ++ or_empty (peerDependencies packageJson).

(** A manifest that declares an internal peer at a pinned version. *)
Definition pinned_peer_manifest : PackageJson :=
  {| dependencies := Some [("react", "18.0.0")];
     peerDependencies := Some [("@tscircuit/core", "^1.0.0")];
     devDependencies := None |}.

(** A manifest without any internal package. *)
Definition external_only_manifest : PackageJson :=
  {| dependencies := Some [("react", "18.0.0"); ("zod", "3.0.0")];
     peerDependencies := Some [("typescript", "*")];
     devDependencies := None |}.

(** A manifest with the same [dependencies] and no peer. *)
Definition external_only_manifest_with_react : PackageJson :=
  {| dependencies := Some [("react", "18.0.0")];
     peerDependencies := None;
     devDependencies := None |}.

(** [sample_manifest] with every version changed. *)
Definition sample_manifest_other_versions : PackageJson :=
  {| dependencies := Some [("@tscircuit/core", "*"); ("react", "^19.0.0")];
     peerDependencies :=
       Some [("circuit-json", "*"); ("@tscircuit/props", "0.0.1")];
     devDependencies := None |}.

(** Options with the version rule switched off. *)
Definition lenient_internal_lib_options : CheckOptions :=
  {| package_type := "internal_lib";
     peer_deps_should_be_asterisk := false;
     additional_internal_modules := Some [];
     ignore_packages := Some [] |}.

(** ** The rest of [main]: lists from the environment, output, exit status *)

Module JsString.

(** The number of bytes of the white space or line terminator character
    that [s] starts with, [0] when it starts with none.  These are the
    characters [trim] removes: U+0009 to U+000D, U+0020, U+00A0, U+1680,
    U+2000 to U+200A, U+2028, U+2029, U+202F, U+205F, U+3000 and U+FEFF,
    each in UTF-8. *)
Definition white_length (s : string) : nat :=
  match s with
  | String a rest =>
      let a := N_of_ascii a in
      if ((9 <=? a) && (a <=? 13) || (a =? 32))%N then 1
      else
        match rest with
        | String b rest' =>
            let b := N_of_ascii b in
            if ((a =? 194) && (b =? 160))%N then 2
            else
              match rest' with
              | String c _ =>
                  let c := N_of_ascii c in
                  if ((a =? 225) && (b =? 154) && (c =? 128))%N then 3
                  else if ((a =? 226) && (b =? 128)
                           && ((128 <=? c) && (c <=? 138)
                               || (c =? 168) || (c =? 169) || (c =? 175)))%N
                  then 3
                  else if ((a =? 226) && (b =? 129) && (c =? 159))%N then 3
                  else if ((a =? 227) && (b =? 128) && (c =? 128))%N then 3
                  else if ((a =? 239) && (b =? 187) && (c =? 191))%N then 3
                  else 0
              | EmptyString => 0
              end
        | EmptyString => 0
        end
  | EmptyString => 0
  end.

(** [s] without its first [n] bytes. *)
Fixpoint drop (n : nat) (s : string) : string :=
  match n, s with
  | O, _ => s
  | S k, String _ rest => drop k rest
  | S _, EmptyString => EmptyString
  end.

(** [trimStart], with [skip] bytes of the current white space character
    still to remove. *)
Fixpoint trimStart_from (skip : nat) (s : string) {struct s} : string :=
  match s with
  | EmptyString => EmptyString
  | String _ rest =>
      match skip with
      | S k => trimStart_from k rest
      | O =>
          match white_length s with
          | O => s
          | S k => trimStart_from k rest
          end
      end
  end.

(** [String.prototype.trimStart()]. *)
Definition trimStart (s : string) : string := trimStart_from 0 s.

(** [s] is white space from its first to its last character. *)
Definition all_white (s : string) : bool :=
  match trimStart s with
  | EmptyString => true
  | String _ _ => false
  end.

(** [String.prototype.trimEnd()]: the shortest prefix that is followed by
    white space only. *)
Fixpoint trimEnd (s : string) : string :=
  match s with
  | EmptyString => EmptyString
  | String c rest => if all_white s then EmptyString
                     else String c (trimEnd rest)
  end.

(** [String.prototype.trim()]. *)
Definition trim (s : string) : string := trimEnd (trimStart s).

(** [String.prototype.split(separator)] for a separator of one character:
    the pieces between its occurrences, at least one piece. *)
Fixpoint split (separator : ascii) (s : string) : list string :=
  match s with
  | EmptyString => [EmptyString]
  | String c rest =>
      if Ascii.eqb c separator then EmptyString :: split separator rest
      else
        match split separator rest with
        | piece :: pieces => String c piece :: pieces
        | [] => [String c EmptyString]
        end
  end.

(** [s] holds no occurrence of [c]. *)
Fixpoint lacks (c : ascii) (s : string) : bool :=
  match s with
  | EmptyString => true
  | String c' rest => negb (Ascii.eqb c' c) && lacks c rest
  end.

(** The number of occurrences of [c] in [s]. *)
Fixpoint occurrences (c : ascii) (s : string) : nat :=
  match s with
  | EmptyString => 0
  | String c' rest =>
      (if Ascii.eqb c' c then 1 else 0) + occurrences c rest
  end.

End JsString.

(** Lines 155-163, for either list input:
    [const str = process.env.X || ""] and then
    [str ? str.split(",").map((s) => s.trim()) : []]. *)
Definition list_input (value : option string) : list string :=
  let str := Js.or_default value "" in
  match str with
  | EmptyString => []
  | String _ _ => map JsString.trim (JsString.split "," str)
  end.

Definition additionalInternalModules (env : Js.Env) : list string :=
  list_input (env "INPUT_ADDITIONAL_INTERNAL_MODULES").

Definition ignorePackages (env : Js.Env) : list string :=
  list_input (env "INPUT_IGNORE_PACKAGES").

(** Lines 165-170: the options [main] passes to the checker. *)
Definition options_of_env (env : Js.Env) : CheckOptions :=
  {| package_type := packageType env;
     peer_deps_should_be_asterisk := peerDepsAsterisk env;
     additional_internal_modules := Some (additionalInternalModules env);
     ignore_packages := Some (ignorePackages env) |}.

(** What [main] writes: [console.log] goes to the standard output,
    [console.error] to the standard error. *)
Inductive Write : Type :=
  | Log (text : string)
  | LogError (text : string).

(** A finished run: what was written, in order, and the exit status. *)
Record Run : Type := mkRun {
  written : list Write;
  status : nat
}.

Section Main.

Variable readFileSync : string -> Js.Error + string.
Variable JSON_parse : string -> Js.Error + PackageJson.

(** [path.join(a, b)]. *)
Variable path_join : string -> string -> string.

(** [JSON.stringify(options, null, 2)]. *)
Variable JSON_stringify : CheckOptions -> string.

(** Line 173: [process.env.GITHUB_WORKSPACE || process.cwd()]; the call to
    [process.cwd], which may throw, is made only when the variable is unset
    or empty. *)
Definition workspaceDir (env : Js.Env) (cwd : Js.Error + string)
  : Js.Error + string :=
  match env "GITHUB_WORKSPACE" with
  | None => cwd
  | Some EmptyString => cwd
  | Some dir => inr dir
  end.

(** [main], lines 147-195.  A run that neither calls [process.exit] nor
    throws ends with status 0. *)
Definition main (env : Js.Env) (cwd : Js.Error + string) : Run :=
  let options := options_of_env env in
  match workspaceDir env cwd with
  | inl error =>
      {| written := [LogError ("❌ An error occurred: " ++ Js.message error)];
         status := 1 |}
  | inr workspaceDir =>
      let packageJsonPath := path_join workspaceDir "package.json" in
      let announced :=
        Log ("Checking dependencies with options: " ++ JSON_stringify options) in
      let result :=
        checkDependencies readFileSync JSON_parse packageJsonPath options in
      if negb (success result) then
        {| written :=
             [announced; LogError "❌ Dependency check failed:"]
             ++ map (fun error => LogError ("  - " ++ error)) (errors result);
           status := 1 |}
      else
        {| written := [announced; Log "✅ All dependency checks passed!"];
           status := 0 |}
  end.

End Main.

(** An environment that sets the given variables and no other. *)
Fixpoint env_of (bindings : list (string * string)) : Js.Env :=
  fun name =>
    match bindings with
    | [] => None
    | (key, value) :: others =>
        if name =? key then Some value else env_of others name
    end.

(** [path.join] on a directory without a trailing separator. *)
Definition join_with_slash (a b : string) : string := a ++ "/" ++ b.

(** A rendering of the options that shows the package type only. *)
Definition show_package_type (options : CheckOptions) : string :=
  "{ package_type: " ++ package_type options ++ " }".

(** ** From the declared members of an object to its entries *)

Module JsObject.

(** The value of a decimal digit. *)
Definition digit (c : ascii) : option N :=
  let n := N_of_ascii c in
  if ((48 <=? n) && (n <=? 57))%N then Some (n - 48)%N else None.

(** The number a string of decimal digits writes, read after [acc]. *)
Fixpoint decimal_from (acc : N) (s : string) : option N :=
  match s with
  | EmptyString => Some acc
  | String c rest =>
      match digit c with
      | Some d => decimal_from (10 * acc + d)%N rest
      | None => None
      end
  end.

(** A property key is an array index when it is the canonical decimal
    form (no sign, no leading zero) of an integer from 0 to 2^32 - 2. *)
Definition array_index (key : string) : option N :=
  match key with
  | EmptyString => None
  | String c rest =>
      if Ascii.eqb c "0" && negb (rest =? "") then None
      else
        match decimal_from 0 key with
        | Some n => if (n <? 4294967295)%N then Some n else None
        | None => None
        end
  end.

(** [CreateDataProperty]: a new key is added after the existing ones; a key
    that exists keeps its place and takes the new value. *)
Fixpoint define (key value : string) (properties : Entries) : Entries :=
  match properties with
  | [] => [(key, value)]
  | (k, v) :: rest =>
      if k =? key then (k, value) :: rest
      else (k, v) :: define key value rest
  end.

(** The properties of the object [JSON.parse] builds from the members of an
    object literal, in the order of their creation. *)
Definition object_of (members : Entries) : Entries :=
  fold_left (fun properties member =>
               define (fst member) (snd member) properties)
            members [].

(** The properties whose key is an array index, each with its index. *)
Fixpoint indexed (properties : Entries) : list (N * (string * string)) :=
  match properties with
  | [] => []
  | property :: rest =>
      match array_index (fst property) with
      | Some i => (i, property) :: indexed rest
      | None => indexed rest
      end
  end.

(** The properties whose key is not an array index, in creation order. *)
Definition named (properties : Entries) : Entries :=
  filter (fun property =>
            match array_index (fst property) with
            | Some _ => false
            | None => true
            end) properties.

Fixpoint insert_ascending (item : N * (string * string))
    (sorted : list (N * (string * string))) : list (N * (string * string)) :=
  match sorted with
  | [] => [item]
  | first :: rest =>
      if (fst item <=? fst first)%N then item :: sorted
      else first :: insert_ascending item rest
  end.

Definition ascending (items : list (N * (string * string)))
  : list (N * (string * string)) :=
  fold_right insert_ascending [] items.

(** [Object.entries(object)]: the array indices in ascending numeric order,
    then the other keys in the order of their creation. *)
Definition entries (properties : Entries) : Entries :=
  map snd (ascending (indexed properties)) ++ named properties.

(** [Object.entries(JSON.parse(text))] for an object literal with the given
    members, in the order the text declares them. *)
Definition entries_of_members (members : Entries) : Entries :=
  entries (object_of members).

(** Every key is declared once and none is an array index. *)
Definition plainly_keyed (members : Entries) : Prop :=
  NoDup (keys members)
  /\ Forall (fun key => array_index key = None) (keys members).

End JsObject.

(** The three dependency objects of a [package.json] as its text declares
    them: the members of each, in declaration order. *)
Record Declaration : Type := mkDeclaration {
  declared_dependencies : option Entries;
  declared_peerDependencies : option Entries;
  declared_devDependencies : option Entries
}.

(** The manifest [JSON.parse] yields for a declaration. *)
Definition manifest_of (declaration : Declaration) : PackageJson :=
  {| dependencies :=
       option_map JsObject.entries_of_members
                  (declared_dependencies declaration);
     peerDependencies :=
       option_map JsObject.entries_of_members
                  (declared_peerDependencies declaration);
     devDependencies :=
       option_map JsObject.entries_of_members
                  (declared_devDependencies declaration) |}.

(** A declaration whose dependencies mix numeric and other names. *)
Definition numeric_names_declaration : Declaration :=
  {| declared_dependencies :=
       Some [("circuit-b", "1.0.0"); ("2", "1.0.0"); ("1", "1.0.0");
             ("circuit-a", "1.0.0")];
     declared_peerDependencies := None;
     declared_devDependencies := None |}.

(** Options that add the names ["1"] and ["2"] to the internal ones. *)
Definition numeric_names_options : CheckOptions :=
  {| package_type := "internal_lib";
     peer_deps_should_be_asterisk := true;
     additional_internal_modules := Some ["1"; "2"];
     ignore_packages := Some [] |}.

(** A declaration without numeric names. *)
Definition sample_declaration : Declaration :=
  {| declared_dependencies :=
       Some [("circuit-b", "1.0.0"); ("react", "18.0.0");
             ("circuit-a", "1.0.0")];
     declared_peerDependencies :=
       Some [("@tscircuit/props", "^1.0.0"); ("circuit-json", "*")];
     declared_devDependencies := None |}.

(** * Properties *)

(** ** Strings and arrays *)

Section StringFacts.

Local Open Scope string_scope.

Lemma prefix_append (p r : string) : String.prefix p (p ++ r) = true.
Proof.
  induction p as [|c p IH]; simpl.
  - now destruct r.
  - destruct (ascii_dec c c) as [_|ne]; [exact IH | now destruct ne].
Qed.

Lemma prefix_split (p s : string) :
  String.prefix p s = true -> exists r, s = p ++ r.
Proof.
  revert s; induction p as [|c p IH]; intros s H.
  - now exists s.
  - destruct s as [|c' s]; simpl in H; [discriminate|].
    destruct (ascii_dec c c') as [->|]; [|discriminate].
    destruct (IH _ H) as [r ->]. now exists r.
Qed.

Lemma includes_here (p r : string) : Js.includes (p ++ r) p = true.
Proof.
  assert (U : forall s, String.prefix p s = true -> Js.includes s p = true).
  { intros s H; destruct s; cbn [Js.includes]; rewrite H; reflexivity. }
  apply U, prefix_append.
Qed.

Lemma includes_later (a s p : string) :
  Js.includes s p = true -> Js.includes (a ++ s) p = true.
Proof.
  intros H; induction a as [|c a IH]; simpl; [exact H|].
  rewrite IH. apply orb_true_r.
Qed.

Lemma toLowerCase_append (a b : string) :
  Js.toLowerCase (a ++ b) = Js.toLowerCase a ++ Js.toLowerCase b.
Proof. induction a as [|c a IH]; simpl; [reflexivity | now rewrite IH]. Qed.

Lemma array_includes_In (xs : list string) (x : string) :
  Js.array_includes xs x = true <-> In x xs.
Proof.
  unfold Js.array_includes. rewrite existsb_exists. split.
  - intros [y [Hy E]]. apply String.eqb_eq in E. now subst.
  - intros H. exists x. split; [exact H | apply String.eqb_refl].
Qed.

Lemma array_includes_not_In (xs : list string) (x : string) :
  Js.array_includes xs x = false <-> ~ In x xs.
Proof.
  rewrite <- array_includes_In.
  destruct (Js.array_includes xs x); intuition congruence.
Qed.

(** A name in the organisation's namespace carries the marker. *)
Lemma namespace_has_marker (n : string) :
  Js.startsWith n "@tscircuit/" = true ->
  Js.includes (Js.toLowerCase n) "circuit" = true.
Proof.
  intros H. apply prefix_split in H. destruct H as [r ->].
  rewrite toLowerCase_append.
  change (Js.includes ("@ts" ++ ("circuit" ++ ("/" ++ Js.toLowerCase r)))
                      "circuit" = true).
  apply includes_later, includes_here.
Qed.

End StringFacts.

(** ** The classifier *)

Lemma isInternalModule_true_iff (n : string) (extra : option (list string)) :
  isInternalModule n extra = true <->
  contains_circuit n = true
  \/ In n INTERNAL_PACKAGE_LIST
  \/ In n (match extra with Some l => l | None => [] end).
Proof.
  unfold isInternalModule, contains_circuit.
  pose proof (namespace_has_marker n) as Hns.
  rewrite <- !array_includes_In.
  destruct (Js.array_includes INTERNAL_PACKAGE_LIST n);
    destruct (Js.startsWith n "@tscircuit/");
    destruct (Js.includes (Js.toLowerCase n) "circuit");
    destruct (Js.array_includes _ n);
    try specialize (Hns eq_refl); intuition congruence.
Qed.

(** C1 (the code departs from the documented rule).  With the input set to
    ["false"] the flag [main] computes is [true], while the parsing rule
    "true iff the string equals "true" exactly" gives [false]: the
    disjunction with the default, which is [true], decides the flag. *)
Theorem peerDepsAsterisk_ignores_false_input :
  peerDepsAsterisk (env_with_asterisk_input "false") = true
  /\ parses_as_true (env_with_asterisk_input "false"
                       "INPUT_PEER_DEPS_SHOULD_BE_ASTERISK") = false.
Proof. split; reflexivity. Qed.

(** The flag does not depend on the environment at all. *)
Lemma peerDepsAsterisk_always (env : Js.Env) : peerDepsAsterisk env = true.
Proof. unfold peerDepsAsterisk. apply orb_true_r. Qed.

(** C2, as stated, fails: a name of the built-in list is internal although
    its lowercased form does not contain ["circuit"]. *)
Lemma isInternalModule_not_only_marker :
  ~ (forall (n : string) (extra : option (list string)),
       isInternalModule n extra = true <-> contains_circuit n = true).
Proof.
  intros H.
  destruct (H "schematic-symbols" (Some [])) as [H1 _].
  specialize (H1 eq_refl). discriminate H1.
Qed.

(** C2, amended: a name is internal iff its lowercased form contains
    ["circuit"], or it is in the built-in list, or it is in the caller's
    extra list.  ["MyCircuitLib"] is internal whatever the extra list;
    ["unrelated-pkg"] is not internal unless the extra list holds it. *)
Theorem isInternalModule_characterised :
  forall (n : string) (extra : option (list string)),
    (isInternalModule n extra = true <->
       contains_circuit n = true
       \/ In n INTERNAL_PACKAGE_LIST
       \/ In n (match extra with Some l => l | None => [] end))
    /\ isInternalModule "MyCircuitLib" extra = true
    /\ (~ In "unrelated-pkg" (match extra with Some l => l | None => [] end)
        -> isInternalModule "unrelated-pkg" extra = false).
Proof.
  intros n extra. split; [apply isInternalModule_true_iff|]. split.
  - reflexivity.
  - intros Hnot. apply array_includes_not_In in Hnot.
    unfold isInternalModule. cbv zeta. rewrite Hnot. reflexivity.
Qed.

(** C10: every name that starts with ["@tscircuit/"] contains ["circuit"]
    once lowercased, so the prefix rule is subsumed by the substring rule:
    the classifier without the prefix rule agrees with [isInternalModule] on
    every name and every extra list. *)
Theorem prefix_rule_subsumed :
  forall (n : string) (extra : option (list string)),
    (Js.startsWith n "@tscircuit/" = true ->
     Js.includes (Js.toLowerCase n) "circuit" = true)
    /\ isInternalModule_without_prefix_rule n extra = isInternalModule n extra.
Proof.
  intros n extra. split; [apply namespace_has_marker|].
  unfold isInternalModule_without_prefix_rule, isInternalModule.
  pose proof (namespace_has_marker n) as Hns.
  destruct (Js.array_includes INTERNAL_PACKAGE_LIST n); [reflexivity|].
  destruct (Js.startsWith n "@tscircuit/"); [|reflexivity].
  now rewrite (Hns eq_refl).
Qed.

(** ** Messages are told apart by their text *)

Section Messages.

Local Open Scope string_scope.

Lemma rule_message_shape (rule : Rule) (dep : string) :
  rule_message rule dep = message_head ++ dep ++ message_tail rule.
Proof. destruct rule; reflexivity. Qed.

Lemma append_cancel_head (h a b : string) : h ++ a = h ++ b -> a = b.
Proof.
  induction h as [|c h IH]; simpl; intros H; [exact H|].
  injection H as H. exact (IH H).
Qed.

Lemma chars_append (a b : string) :
  list_ascii_of_string (a ++ b)
  = (list_ascii_of_string a ++ list_ascii_of_string b)%list.
Proof. induction a as [|c a IH]; simpl; [reflexivity | now rewrite IH]. Qed.

Lemma chars_inj (a b : string) :
  list_ascii_of_string a = list_ascii_of_string b -> a = b.
Proof.
  intros H.
  rewrite <- (string_of_list_ascii_of_string a),
          <- (string_of_list_ascii_of_string b).
  now rewrite H.
Qed.

(** Two texts whose last [k] characters differ are different, whatever
    stands before them. *)
Lemma endings_clash (x y a b : list ascii) (k : nat) :
  k <= List.length a -> k <= List.length b ->
  firstn k (rev a) <> firstn k (rev b) ->
  (x ++ a)%list <> (y ++ b)%list.
Proof.
  intros Ha Hb Hne E. apply Hne.
  apply (f_equal (fun l => firstn k (rev l))) in E.
  rewrite !rev_app_distr, !firstn_app, !length_rev in E.
  replace (k - List.length a) with 0 in E by lia.
  replace (k - List.length b) with 0 in E by lia.
  now rewrite !firstn_O, !app_nil_r in E.
Qed.

Lemma rule_message_inj (r r' : Rule) (d n : string) :
  rule_message r d = rule_message r' n -> r = r' /\ d = n.
Proof.
  rewrite !rule_message_shape. intros H.
  apply append_cancel_head in H.
  apply (f_equal list_ascii_of_string) in H.
  rewrite !chars_append in H.
  destruct r, r';
    try (split; [reflexivity|];
         apply app_inv_tail in H; exact (chars_inj _ _ H));
    exfalso; revert H; apply (endings_clash _ _ _ _ 15);
    vm_compute; first [lia | discriminate].
Qed.

Lemma failure_is_no_violation (error : Js.Error) (name : string) :
  ~ violation_about name (read_or_parse_failure error).
Proof. intros [rule H]. destruct rule; discriminate H. Qed.

End Messages.

(** ** The loops *)

Section Loops.

Variable offending : string -> string -> bool.
Variable message : string -> string.

Let body (dep version : string) (result : Result) : Result :=
  if offending dep version then report (message dep) result else result.

Lemma for_entries_errors (obj : Entries) (result : Result) :
  errors (for_entries body obj result)
  = errors result ++ violations offending message obj.
Proof.
  revert result; induction obj as [|[dep version] obj IH]; intros result.
  - simpl. now rewrite app_nil_r.
  - unfold for_entries in *. simpl fold_left. rewrite IH.
    unfold body, violations. simpl.
    destruct (offending dep version); simpl; [|reflexivity].
    now rewrite <- app_assoc.
Qed.

(** The flag and the list stay in step through a loop. *)
Lemma for_entries_in_step (obj : Entries) (result : Result) :
  (success result = true <-> errors result = []) ->
  (success (for_entries body obj result) = true
   <-> errors (for_entries body obj result) = []).
Proof.
  revert result; induction obj as [|[dep version] obj IH]; intros result H.
  - exact H.
  - unfold for_entries in *. simpl fold_left. apply IH.
    unfold body. simpl. destruct (offending dep version); [|exact H].
    simpl. split; [discriminate|].
    intros E. now apply app_eq_nil in E.
Qed.

End Loops.

(** ** Reading the manifest, then checking it *)

Section Checker.

Variable readFileSync : string -> Js.Error + string.
Variable JSON_parse : string -> Js.Error + PackageJson.

Lemma checkDependencies_readable path text packageJson options :
  readFileSync path = inr text ->
  JSON_parse text = inr packageJson ->
  checkDependencies readFileSync JSON_parse path options
  = check_package packageJson options fresh_result.
Proof.
  intros Hread Hparse. unfold checkDependencies.
  now rewrite Hread, Hparse.
Qed.

Lemma checkDependencies_failed path error options :
  (readFileSync path = inl error
   \/ exists text, readFileSync path = inr text
                   /\ JSON_parse text = inl error) ->
  checkDependencies readFileSync JSON_parse path options
  = report (read_or_parse_failure error) fresh_result.
Proof.
  unfold checkDependencies. intros [Hread | [text [Hread Hparse]]].
  - now rewrite Hread.
  - now rewrite Hread, Hparse.
Qed.

(** Every run either read the manifest or failed with one error. *)
Lemma checkDependencies_cases path options :
  (exists packageJson,
      checkDependencies readFileSync JSON_parse path options
      = check_package packageJson options fresh_result)
  \/ (exists error,
      checkDependencies readFileSync JSON_parse path options
      = report (read_or_parse_failure error) fresh_result).
Proof.
  unfold checkDependencies.
  destruct (readFileSync path) as [error | text]; [right; now exists error|].
  destruct (JSON_parse text) as [error | packageJson].
  - right; now exists error.
  - left; now exists packageJson.
Qed.

End Checker.

Lemma check_package_errors packageJson options result :
  errors (check_package packageJson options result)
  = errors result
    ++ dependency_violations options (or_empty (dependencies packageJson))
    ++ peer_violations options (or_empty (peerDependencies packageJson)).
Proof.
  unfold check_package, dependency_violations, peer_violations.
  cbv zeta.
  destruct (package_type options =? "internal_lib")%string.
  - destruct (peer_deps_should_be_asterisk options).
    + rewrite !for_entries_errors. now rewrite <- app_assoc.
    + rewrite for_entries_errors. now rewrite app_nil_r.
  - destruct (package_type options =? "bundled_lib")%string.
    + rewrite !for_entries_errors. now rewrite <- app_assoc.
    + now rewrite app_nil_r.
Qed.

Lemma check_package_in_step packageJson options result :
  (success result = true <-> errors result = []) ->
  (success (check_package packageJson options result) = true
   <-> errors (check_package packageJson options result) = []).
Proof.
  intros H. unfold check_package. cbv zeta.
  destruct (package_type options =? "internal_lib")%string.
  - destruct (peer_deps_should_be_asterisk options);
      repeat apply for_entries_in_step; exact H.
  - destruct (package_type options =? "bundled_lib")%string;
      repeat apply for_entries_in_step; exact H.
Qed.

Lemma in_violations offending message obj msg :
  In msg (violations offending message obj) <->
  exists dep version,
    In (dep, version) obj /\ offending dep version = true
    /\ msg = message dep.
Proof.
  unfold violations. rewrite in_map_iff. split.
  - intros [[dep version] [E H]]. apply filter_In in H.
    exists dep, version. simpl in *. intuition.
  - intros [dep [version [Hin [Hoff ->]]]].
    exists (dep, version). split; [reflexivity|].
    apply filter_In. now split.
Qed.

(** The keys of an object are distinct, so an entry is determined by its
    key. *)
Lemma entry_unique (obj : Entries) (dep v v' : string) :
  NoDup (map fst obj) -> In (dep, v) obj -> In (dep, v') obj -> v = v'.
Proof.
  induction obj as [|[k w] obj IH]; simpl; intros Hnd H1 H2; [contradiction|].
  inversion Hnd as [|? ? Hnotin Hnd']; subst.
  destruct H1 as [E1 | H1], H2 as [E2 | H2].
  - congruence.
  - injection E1 as -> ->. exfalso. apply Hnotin.
    apply (in_map fst) in H2. exact H2.
  - injection E2 as -> ->. exfalso. apply Hnotin.
    apply (in_map fst) in H1. exact H1.
  - now apply IH.
Qed.

(** Whatever the rule, a reported violation is about an entry that is
    internal and not ignored. *)
Lemma violation_is_checked options deps peers msg :
  In msg (dependency_violations options deps ++ peer_violations options peers) ->
  exists rule dep,
    msg = rule_message rule dep /\ not_ignored options dep = true.
Proof.
  unfold dependency_violations, peer_violations, internal_and_checked.
  intros H. apply in_app_or in H.
  destruct (package_type options =? "internal_lib")%string.
  - destruct H as [H | H].
    + apply in_violations in H. destruct H as [dep [v [_ [Hoff ->]]]].
      apply andb_true_iff in Hoff.
      exists InternalLibDependency, dep. now split.
    + destruct (peer_deps_should_be_asterisk options); [|contradiction].
      apply in_violations in H. destruct H as [dep [v [_ [Hoff ->]]]].
      apply andb_true_iff in Hoff.
      exists InternalLibPeerVersion, dep. now split.
  - destruct (package_type options =? "bundled_lib")%string.
    + destruct H as [H | H];
        apply in_violations in H; destruct H as [dep [v [_ [Hoff ->]]]];
        apply andb_true_iff in Hoff.
      * exists BundledLibDependency, dep. now split.
      * exists BundledLibPeer, dep. now split.
    + destruct H as [[] | []].
Qed.

(** ** The claims about [checkDependencies] *)

(** C3: when [package_type] is neither ["internal_lib"] nor ["bundled_lib"],
    every manifest that reads and parses is accepted: the result has
    [success = true] and no error. *)
Theorem unknown_package_type_is_accepted :
  forall readFileSync JSON_parse path text packageJson options,
    readFileSync path = inr text ->
    JSON_parse text = inr packageJson ->
    package_type options <> "internal_lib" ->
    package_type options <> "bundled_lib" ->
    checkDependencies readFileSync JSON_parse path options
    = {| success := true; errors := [] |}.
Proof.
  intros rf jp path text pj o Hread Hparse Hint Hbun.
  rewrite (checkDependencies_readable rf jp path text pj o Hread Hparse).
  unfold check_package. cbv zeta.
  apply String.eqb_neq in Hint, Hbun. now rewrite Hint, Hbun.
Qed.

Lemma unknown_package_type_is_accepted_witness :
  checkDependencies (file_with "{}") (parses_to sample_manifest)
                    "package.json" unknown_type_options
  = {| success := true; errors := [] |}.
Proof.
  apply (unknown_package_type_is_accepted
           (file_with "{}") (parses_to sample_manifest)
           "package.json" "{}" sample_manifest unknown_type_options).
  - reflexivity.
  - reflexivity.
  - discriminate.
  - discriminate.
Defined.

(** C4: when the manifest cannot be read, or its text cannot be parsed, the
    result is a failure whose only error is the fixed prefix followed by the
    message of the error thrown; no rule contributes, whatever the options. *)
Theorem unreadable_manifest_is_one_error :
  forall readFileSync JSON_parse path error options,
    (readFileSync path = inl error
     \/ exists text, readFileSync path = inr text
                     /\ JSON_parse text = inl error) ->
    checkDependencies readFileSync JSON_parse path options
    = {| success := false;
         errors := [("Error reading or parsing package.json: "
                     ++ Js.message error)%string] |}.
Proof.
  intros rf jp path error o H.
  rewrite (checkDependencies_failed rf jp path error o H). reflexivity.
Qed.

Lemma unreadable_manifest_is_one_error_witness :
  checkDependencies no_such_file rejects_all "/repo/package.json"
                    bundled_lib_options
  = {| success := false;
       errors := ["Error reading or parsing package.json: ENOENT: no such file or directory, open '/repo/package.json'"%string] |}.
Proof.
  apply (unreadable_manifest_is_one_error
           no_such_file rejects_all "/repo/package.json"
           (Js.mkError "ENOENT: no such file or directory, open '/repo/package.json'")
           bundled_lib_options).
  left. reflexivity.
Defined.

(** C5: in every result of [checkDependencies], [success] is [true] iff
    [errors] is empty. *)
Theorem success_iff_no_errors :
  forall readFileSync JSON_parse path options,
    success (checkDependencies readFileSync JSON_parse path options) = true
    <-> errors (checkDependencies readFileSync JSON_parse path options) = [].
Proof.
  intros rf jp path o.
  destruct (checkDependencies_cases rf jp path o) as [[pj ->] | [e ->]].
  - apply check_package_in_step. simpl. tauto.
  - simpl. split; discriminate.
Qed.

(** C6: no violation is reported about a package of [ignore_packages],
    whichever of the four rules and whatever the manifest and the package
    type. *)
Theorem ignored_package_is_never_reported :
  forall readFileSync JSON_parse path options ignored name,
    ignore_packages options = Some ignored ->
    In name ignored ->
    forall msg,
      In msg (errors (checkDependencies readFileSync JSON_parse path options)) ->
      ~ violation_about name msg.
Proof.
  intros rf jp path o ignored name Hopt Hin msg Hmsg Habout.
  destruct (checkDependencies_cases rf jp path o) as [[pj E] | [e E]];
    rewrite E in Hmsg.
  - rewrite check_package_errors in Hmsg. simpl in Hmsg.
    apply violation_is_checked in Hmsg.
    destruct Hmsg as [rule [dep [-> Hchecked]]].
    destruct Habout as [rule' Habout].
    apply rule_message_inj in Habout. destruct Habout as [_ ->].
    unfold not_ignored in Hchecked. rewrite Hopt in Hchecked.
    apply negb_true_iff, array_includes_not_In in Hchecked.
    exact (Hchecked Hin).
  - simpl in Hmsg. destruct Hmsg as [<- | []].
    exact (failure_is_no_violation e name Habout).
Qed.

Lemma ignored_package_is_never_reported_witness :
  errors (check_manifest sample_manifest ignoring_core_options)
  = [peer_not_asterisk "circuit-json"]
  /\ ~ violation_about "@tscircuit/core" (peer_not_asterisk "circuit-json").
Proof.
  split; [reflexivity|].
  apply (ignored_package_is_never_reported
           (file_with "{}") (parses_to sample_manifest) "package.json"
           ignoring_core_options ["@tscircuit/core"%string] "@tscircuit/core").
  - reflexivity.
  - left. reflexivity.
  - left. reflexivity.
Defined.

(** C7: under ["internal_lib"] with the asterisk flag set, an entry of
    [peerDependencies] that is internal and not ignored is reported exactly
    when its version is not the one-character string ["*"]; the comparison is
    string equality.  The keys of the object are distinct. *)
Theorem peer_version_is_compared_literally :
  forall readFileSync JSON_parse path text packageJson options peers
         dep version,
    readFileSync path = inr text ->
    JSON_parse text = inr packageJson ->
    package_type options = "internal_lib"%string ->
    peer_deps_should_be_asterisk options = true ->
    peerDependencies packageJson = Some peers ->
    NoDup (map fst peers) ->
    In (dep, version) peers ->
    isInternalModule dep (additional_internal_modules options) = true ->
    not_ignored options dep = true ->
    (In (peer_not_asterisk dep)
        (errors (checkDependencies readFileSync JSON_parse path options))
     <-> version <> "*"%string).
Proof.
  intros rf jp path text pj o peers dep version
         Hread Hparse Htype Hflag Hpeers Hnodup Hin Hinternal Hchecked.
  rewrite (checkDependencies_readable rf jp path text pj o Hread Hparse).
  rewrite check_package_errors. simpl errors. rewrite app_nil_l.
  unfold dependency_violations, peer_violations.
  rewrite Htype, Hflag, Hpeers. simpl or_empty.
  change ("internal_lib" =? "internal_lib")%string with true. cbv iota.
  rewrite in_app_iff, !in_violations. split.
  - intros [[d [v [_ [_ E]]]] | [d [v [Hd [Hoff E]]]]].
    + apply (rule_message_inj InternalLibPeerVersion InternalLibDependency)
        in E. destruct E as [E _]. discriminate E.
    + apply (rule_message_inj InternalLibPeerVersion InternalLibPeerVersion)
        in E. destruct E as [_ <-].
      rewrite (entry_unique peers dep version v Hnodup Hin Hd).
      apply andb_true_iff in Hoff. destruct Hoff as [Hoff _].
      apply andb_true_iff in Hoff. destruct Hoff as [_ Hoff].
      apply negb_true_iff in Hoff. now apply String.eqb_neq.
  - intros Hne. right. exists dep, version. split; [exact Hin|].
    split; [|reflexivity].
    apply String.eqb_neq in Hne. now rewrite Hinternal, Hne, Hchecked.
Qed.

Lemma peer_version_is_compared_literally_witness :
  In (peer_not_asterisk "circuit-json")
     (errors (check_manifest sample_manifest internal_lib_options))
  <-> "^1.0.0"%string <> "*"%string.
Proof.
  apply (peer_version_is_compared_literally
           (file_with "{}") (parses_to sample_manifest) "package.json" "{}"
           sample_manifest internal_lib_options
           [("circuit-json", "^1.0.0"); ("@tscircuit/props", "*")]%string).
  - reflexivity.
  - reflexivity.
  - reflexivity.
  - reflexivity.
  - reflexivity.
  - simpl. constructor.
    + simpl. intros [H | []]. discriminate H.
    + constructor; [intros [] | constructor].
  - left. reflexivity.
  - reflexivity.
  - reflexivity.
Defined.

(** For a manifest that reads and parses, [errors] is the messages of the
    offending entries of [dependencies], in the order [Object.entries] gives
    them, followed by those of [peerDependencies]. *)
Lemma errors_of_parsed_manifest :
  forall readFileSync JSON_parse path text packageJson options,
    readFileSync path = inr text ->
    JSON_parse text = inr packageJson ->
    errors (checkDependencies readFileSync JSON_parse path options)
    = dependency_violations options (or_empty (dependencies packageJson))
      ++ peer_violations options (or_empty (peerDependencies packageJson)).
Proof.
  intros rf jp path text pj o Hread Hparse.
  rewrite (checkDependencies_readable rf jp path text pj o Hread Hparse).
  now rewrite check_package_errors.
Qed.

Section ObjectFacts.

Lemma define_new (key value : string) (properties : Entries) :
  ~ In key (keys properties) ->
  JsObject.define key value properties = properties ++ [(key, value)].
Proof.
  induction properties as [|[k v] rest IH]; simpl; intros H; [reflexivity|].
  destruct (String.eqb_spec k key) as [-> | _]; [now destruct H; left|].
  rewrite IH; [reflexivity | intros Hin; apply H; now right].
Qed.

Lemma object_of_from (members properties : Entries) :
  NoDup (keys (properties ++ members)) ->
  fold_left (fun o member => JsObject.define (fst member) (snd member) o)
            members properties
  = properties ++ members.
Proof.
  revert properties; induction members as [|[k v] rest IH];
    intros properties H; simpl.
  - now rewrite app_nil_r.
  - assert (Hnew : ~ In k (keys properties)).
    { unfold keys in *. rewrite map_app in H. simpl in H.
      apply NoDup_remove_2 in H. intros Hin. apply H, in_or_app. now left. }
    rewrite (define_new k v properties Hnew).
    rewrite IH; rewrite <- app_assoc; [reflexivity | exact H].
Qed.

(** Members declared once each become the properties, in that order. *)
Lemma object_of_distinct (members : Entries) :
  NoDup (keys members) -> JsObject.object_of members = members.
Proof. intros H. exact (object_of_from members [] H). Qed.

(** Without array indices, enumeration is creation order. *)
Lemma entries_without_indices (properties : Entries) :
  Forall (fun key => JsObject.array_index key = None) (keys properties) ->
  JsObject.entries properties = properties.
Proof.
  unfold JsObject.entries. intros H.
  induction properties as [|[k v] rest IH]; [reflexivity|].
  inversion H as [|? ? Hk Hrest]; subst. specialize (IH Hrest).
  unfold JsObject.named in *. simpl in *. rewrite Hk in *.
  destruct (JsObject.indexed rest) eqn:E.
  - simpl in *. now rewrite IH.
  - exfalso. clear IH. revert E. clear -Hrest.
    induction rest as [|[k' v'] rest IH]; simpl; [discriminate|].
    inversion Hrest as [|? ? Hk' Hrest']; subst. simpl in Hk'.
    rewrite Hk'. now apply IH.
Qed.

Lemma entries_of_plainly_keyed (members : Entries) :
  JsObject.plainly_keyed members ->
  JsObject.entries_of_members members = members.
Proof.
  intros [Hnd Hplain]. unfold JsObject.entries_of_members.
  rewrite (object_of_distinct members Hnd).
  now apply entries_without_indices.
Qed.

Lemma or_empty_entries_of_members (field : option Entries) :
  or_empty (option_map JsObject.entries_of_members field)
  = JsObject.entries_of_members (or_empty field).
Proof. now destruct field. Qed.

End ObjectFacts.

(** C8, as stated, fails: a manifest that declares its dependencies in the
    order [circuit-b], [2], [1], [circuit-a], checked with [1] and [2] among
    the additional internal modules, is reported in the order [1], [2],
    [circuit-b], [circuit-a]: [Object.entries] puts the array indices
    first, in ascending order. *)
Lemma errors_do_not_follow_declaration_order :
  ~ (forall readFileSync JSON_parse path text declaration options,
       readFileSync path = inr text ->
       JSON_parse text = inr (manifest_of declaration) ->
       errors (checkDependencies readFileSync JSON_parse path options)
       = dependency_violations options
           (or_empty (declared_dependencies declaration))
         ++ peer_violations options
              (or_empty (declared_peerDependencies declaration))).
Proof.
  intros H.
  specialize (H (file_with "{}")
                (parses_to (manifest_of numeric_names_declaration))
                "package.json"%string "{}"%string
                numeric_names_declaration numeric_names_options
                eq_refl eq_refl).
  vm_compute in H. discriminate H.
Qed.

(** The order the run above reports, and the order of the declaration. *)
Lemma numeric_names_are_reported_first :
  errors (check_manifest (manifest_of numeric_names_declaration)
                         numeric_names_options)
  = [dependency_in_internal_lib "1"; dependency_in_internal_lib "2";
     dependency_in_internal_lib "circuit-b";
     dependency_in_internal_lib "circuit-a"].
Proof. reflexivity. Qed.

(** C8, amended: [errors] lists the offending entries of [dependencies] and
    then those of [peerDependencies], each in the order [Object.entries]
    enumerates the object parsed from the declared members: keys that are
    array indices first, in ascending numeric order, then the other keys in
    declaration order.  When every key of the two objects is declared once
    and none is an array index, this is the declaration order. *)
Theorem errors_follow_enumeration_order :
  forall readFileSync JSON_parse path text declaration options,
    readFileSync path = inr text ->
    JSON_parse text = inr (manifest_of declaration) ->
    errors (checkDependencies readFileSync JSON_parse path options)
    = dependency_violations options
        (JsObject.entries_of_members
           (or_empty (declared_dependencies declaration)))
      ++ peer_violations options
           (JsObject.entries_of_members
              (or_empty (declared_peerDependencies declaration)))
    /\ (JsObject.plainly_keyed (or_empty (declared_dependencies declaration)) ->
        JsObject.plainly_keyed
          (or_empty (declared_peerDependencies declaration)) ->
        errors (checkDependencies readFileSync JSON_parse path options)
        = dependency_violations options
            (or_empty (declared_dependencies declaration))
          ++ peer_violations options
               (or_empty (declared_peerDependencies declaration))).
Proof.
  intros rf jp path text d o Hread Hparse.
  assert (E : errors (checkDependencies rf jp path o)
              = dependency_violations o
                  (JsObject.entries_of_members
                     (or_empty (declared_dependencies d)))
                ++ peer_violations o
                     (JsObject.entries_of_members
                        (or_empty (declared_peerDependencies d)))).
  { rewrite (errors_of_parsed_manifest rf jp path text _ o Hread Hparse).
    simpl dependencies. simpl peerDependencies.
    now rewrite !or_empty_entries_of_members. }
  split; [exact E|].
  intros Hdeps Hpeers. rewrite E.
  now rewrite (entries_of_plainly_keyed _ Hdeps),
              (entries_of_plainly_keyed _ Hpeers).
Qed.

Lemma errors_follow_enumeration_order_witness :
  errors (check_manifest (manifest_of sample_declaration) bundled_lib_options)
  = [dependency_in_bundled_lib "circuit-b";
     dependency_in_bundled_lib "circuit-a";
     peer_in_bundled_lib "@tscircuit/props";
     peer_in_bundled_lib "circuit-json"].
Proof.
  refine (proj2 (errors_follow_enumeration_order
                   (file_with "{}") (parses_to (manifest_of sample_declaration))
                   "package.json" "{}" sample_declaration bundled_lib_options
                   eq_refl eq_refl) _ _).
  - split.
    + repeat constructor; simpl; intuition discriminate.
    + repeat constructor.
  - split.
    + repeat constructor; simpl; intuition discriminate.
    + repeat constructor.
Defined.

(** C9: two manifests that differ only in [devDependencies] get the same
    result, whatever the options; no entry of [devDependencies] is ever
    reported. *)
Theorem devDependencies_are_not_checked :
  forall readFileSync JSON_parse path text packageJson
         readFileSync' JSON_parse' path' text' packageJson' options,
    readFileSync path = inr text ->
    JSON_parse text = inr packageJson ->
    readFileSync' path' = inr text' ->
    JSON_parse' text' = inr packageJson' ->
    dependencies packageJson = dependencies packageJson' ->
    peerDependencies packageJson = peerDependencies packageJson' ->
    checkDependencies readFileSync JSON_parse path options
    = checkDependencies readFileSync' JSON_parse' path' options.
Proof.
  intros rf jp path text pj rf' jp' path' text' pj' o
         Hread Hparse Hread' Hparse' Hdeps Hpeers.
  rewrite (checkDependencies_readable rf jp path text pj o Hread Hparse).
  rewrite (checkDependencies_readable rf' jp' path' text' pj' o Hread' Hparse').
  unfold check_package. now rewrite Hdeps, Hpeers.
Qed.

Lemma devDependencies_are_not_checked_witness :
  check_manifest sample_manifest bundled_lib_options
  = check_manifest sample_manifest_with_internal_dev bundled_lib_options.
Proof.
  exact (devDependencies_are_not_checked
           (file_with "{}") (parses_to sample_manifest) "package.json" "{}"
           sample_manifest
           (file_with "{}") (parses_to sample_manifest_with_internal_dev)
           "package.json" "{}" sample_manifest_with_internal_dev
           bundled_lib_options eq_refl eq_refl eq_refl eq_refl eq_refl eq_refl).
Defined.

(** * Further properties of the checker *)

(** ** Facts about [violations] *)

Section ViolationFacts.

Variables (f g : string -> string -> bool) (message : string -> string).

Lemma violations_ext (obj : Entries) :
  (forall dep version, In (dep, version) obj -> f dep version = g dep version) ->
  violations f message obj = violations g message obj.
Proof.
  unfold violations. intros H. f_equal. apply filter_ext_in.
  intros [dep version] Hin. now apply H.
Qed.

Lemma violations_none (obj : Entries) :
  (forall dep version, In (dep, version) obj -> f dep version = false) ->
  violations f message obj = [].
Proof.
  intros H. induction obj as [|[dep version] obj IH]; [reflexivity|].
  unfold violations in *. simpl. rewrite (H dep version (or_introl eq_refl)).
  apply IH. intros d v Hin. apply H. now right.
Qed.

Lemma violations_incl (obj : Entries) :
  (forall dep version, f dep version = true -> g dep version = true) ->
  incl (violations f message obj) (violations g message obj).
Proof.
  intros H msg Hin. apply in_violations in Hin.
  destruct Hin as [dep [version [Hin [Hoff ->]]]].
  apply in_violations. exists dep, version. auto.
Qed.

Lemma violations_length_le (message' : string -> string) (obj : Entries) :
  (forall dep version, f dep version = true -> g dep version = true) ->
  List.length (violations f message obj)
  <= List.length (violations g message' obj).
Proof.
  intros H. unfold violations. rewrite !length_map.
  induction obj as [|[dep version] obj IH]; simpl; [lia|].
  destruct (f dep version) eqn:Ef.
  - rewrite (H _ _ Ef). simpl. lia.
  - destruct (g dep version); simpl; lia.
Qed.

Lemma violations_length_bound (obj : Entries) :
  List.length (violations f message obj) <= List.length obj.
Proof.
  unfold violations. rewrite length_map. apply filter_length_le.
Qed.

End ViolationFacts.

(** A rule that does not read the version sees only the keys. *)
Lemma violations_keys (f : string -> bool) (message : string -> string)
    (obj : Entries) :
  violations (fun dep _ => f dep) message obj
  = map message (filter f (keys obj)).
Proof.
  unfold violations, keys.
  induction obj as [|[dep version] obj IH]; simpl; [reflexivity|].
  destruct (f dep); simpl; now rewrite IH.
Qed.

(** A result of [check_package] is determined by its list of errors. *)
Lemma check_package_determined packageJson options packageJson' options' :
  errors (check_package packageJson options fresh_result)
  = errors (check_package packageJson' options' fresh_result) ->
  check_package packageJson options fresh_result
  = check_package packageJson' options' fresh_result.
Proof.
  intros E.
  assert (S1 := check_package_in_step packageJson options fresh_result).
  assert (S2 := check_package_in_step packageJson' options' fresh_result).
  destruct (check_package packageJson options fresh_result) as [s1 e1],
           (check_package packageJson' options' fresh_result) as [s2 e2].
  simpl in *. subst e2. f_equal.
  assert (T : true = true <-> @nil string = []) by tauto.
  specialize (S1 T). specialize (S2 T).
  destruct s1, s2; try reflexivity.
  - exfalso. destruct S1 as [A _], S2 as [_ D].
    specialize (D (A eq_refl)). discriminate D.
  - exfalso. destruct S1 as [_ B], S2 as [C _].
    specialize (B (C eq_refl)). discriminate B.
Qed.

Lemma check_package_clean packageJson options :
  errors (check_package packageJson options fresh_result) = [] ->
  check_package packageJson options fresh_result = fresh_result.
Proof.
  intros E.
  assert (S1 := check_package_in_step packageJson options fresh_result).
  destruct (check_package packageJson options fresh_result) as [s1 e1].
  simpl in *. subst e1. unfold fresh_result. f_equal. apply S1; tauto.
Qed.

Lemma success_step readFileSync JSON_parse path options :
  success (checkDependencies readFileSync JSON_parse path options) = true
  <-> errors (checkDependencies readFileSync JSON_parse path options) = [].
Proof.
  destruct (checkDependencies_cases readFileSync JSON_parse path options)
    as [[pj ->] | [e ->]].
  - apply check_package_in_step. simpl. tauto.
  - simpl. split; discriminate.
Qed.

(** ** What is reported, and what is not *)

(** X1: a manifest none of whose [dependencies] and [peerDependencies] is
    classified internal passes, whatever the package type, the asterisk flag
    and the ignore list. *)
Theorem manifest_without_internal_packages_passes :
  forall readFileSync JSON_parse path text packageJson options,
    readFileSync path = inr text ->
    JSON_parse text = inr packageJson ->
    (forall dep version,
        In (dep, version) (checked_entries packageJson) ->
        isInternalModule dep (additional_internal_modules options) = false) ->
    checkDependencies readFileSync JSON_parse path options
    = {| success := true; errors := [] |}.
Proof.
  intros rf jp path text pj o Hread Hparse Hext.
  rewrite (checkDependencies_readable rf jp path text pj o Hread Hparse).
  apply check_package_clean. rewrite check_package_errors. simpl.
  unfold checked_entries in Hext.
  assert (Hd : forall d v, In (d, v) (or_empty (dependencies pj)) ->
                           isInternalModule d (additional_internal_modules o)
                           = false)
    by (intros d v H; apply (Hext d v), in_or_app; now left).
  assert (Hp : forall d v, In (d, v) (or_empty (peerDependencies pj)) ->
                           isInternalModule d (additional_internal_modules o)
                           = false)
    by (intros d v H; apply (Hext d v), in_or_app; now right).
  unfold dependency_violations, peer_violations, internal_and_checked.
  destruct (package_type o =? "internal_lib")%string;
    [destruct (peer_deps_should_be_asterisk o)
    | destruct (package_type o =? "bundled_lib")%string];
    rewrite ?violations_none; try reflexivity;
    intros d v H; try rewrite (Hd d v H); try rewrite (Hp d v H); reflexivity.
Qed.

Lemma manifest_without_internal_packages_passes_witness :
  checkDependencies (file_with "{}") (parses_to external_only_manifest)
                    "package.json" bundled_lib_options
  = {| success := true; errors := [] |}.
Proof.
  apply (manifest_without_internal_packages_passes
           (file_with "{}") (parses_to external_only_manifest)
           "package.json" "{}" external_only_manifest bundled_lib_options).
  - reflexivity.
  - reflexivity.
  - intros dep version H. simpl in H.
    destruct H as [H | [H | [H | []]]]; injection H as <- _; reflexivity.
Defined.

(** X2: under ["internal_lib"], the message about a direct dependency is
    among the errors exactly when the name is a key of [dependencies], is
    classified internal and is not ignored; its version plays no part. *)
Theorem internal_lib_reports_each_internal_dependency :
  forall readFileSync JSON_parse path text packageJson options dep,
    readFileSync path = inr text ->
    JSON_parse text = inr packageJson ->
    package_type options = "internal_lib"%string ->
    (In (dependency_in_internal_lib dep)
        (errors (checkDependencies readFileSync JSON_parse path options))
     <-> In dep (keys (or_empty (dependencies packageJson)))
         /\ isInternalModule dep (additional_internal_modules options) = true
         /\ not_ignored options dep = true).
Proof.
  intros rf jp path text pj o dep Hread Hparse Htype.
  rewrite (checkDependencies_readable rf jp path text pj o Hread Hparse).
  rewrite check_package_errors. simpl errors. rewrite app_nil_l.
  unfold dependency_violations, peer_violations, internal_and_checked.
  rewrite Htype. change ("internal_lib" =? "internal_lib")%string with true.
  cbv iota. rewrite violations_keys, in_app_iff, in_map_iff. split.
  - intros [[d [E H]] | H].
    + apply (rule_message_inj InternalLibDependency InternalLibDependency)
        in E. destruct E as [_ ->].
      apply filter_In in H. destruct H as [H1 H2].
      apply andb_true_iff in H2. tauto.
    + exfalso. destruct (peer_deps_should_be_asterisk o); [|exact H].
      apply in_violations in H. destruct H as [d [v [_ [_ E]]]].
      apply (rule_message_inj InternalLibDependency InternalLibPeerVersion)
        in E. destruct E as [E _]. discriminate E.
  - intros [Hkey [Hint Hchk]]. left. exists dep. split; [reflexivity|].
    apply filter_In. split; [exact Hkey|]. now rewrite Hint, Hchk.
Qed.

Lemma internal_lib_reports_each_internal_dependency_witness :
  In (dependency_in_internal_lib "@tscircuit/core")
     (errors (check_manifest sample_manifest internal_lib_options))
  <-> In "@tscircuit/core"%string
         (keys (or_empty (dependencies sample_manifest)))
      /\ isInternalModule "@tscircuit/core"
           (additional_internal_modules internal_lib_options) = true
      /\ not_ignored internal_lib_options "@tscircuit/core" = true.
Proof.
  exact (internal_lib_reports_each_internal_dependency
           (file_with "{}") (parses_to sample_manifest) "package.json" "{}"
           sample_manifest internal_lib_options "@tscircuit/core"
           eq_refl eq_refl eq_refl).
Defined.

(** X3: under ["bundled_lib"], a name is reported as a dependency exactly
    when it is an internal, not ignored key of [dependencies], and as a peer
    exactly when it is an internal, not ignored key of [peerDependencies]:
    a peer at version ["*"] is reported like any other. *)
Theorem bundled_lib_reports_each_internal_entry :
  forall readFileSync JSON_parse path text packageJson options dep,
    readFileSync path = inr text ->
    JSON_parse text = inr packageJson ->
    package_type options = "bundled_lib"%string ->
    (In (dependency_in_bundled_lib dep)
        (errors (checkDependencies readFileSync JSON_parse path options))
     <-> In dep (keys (or_empty (dependencies packageJson)))
         /\ internal_and_checked options dep = true)
    /\ (In (peer_in_bundled_lib dep)
           (errors (checkDependencies readFileSync JSON_parse path options))
        <-> In dep (keys (or_empty (peerDependencies packageJson)))
            /\ internal_and_checked options dep = true).
Proof.
  intros rf jp path text pj o dep Hread Hparse Htype.
  rewrite (checkDependencies_readable rf jp path text pj o Hread Hparse).
  rewrite check_package_errors. simpl errors. rewrite app_nil_l.
  unfold dependency_violations, peer_violations.
  rewrite Htype.
  change ("bundled_lib" =? "internal_lib")%string with false.
  change ("bundled_lib" =? "bundled_lib")%string with true.
  cbv iota. rewrite !violations_keys, !in_app_iff, !in_map_iff.
  split; split.
  - intros [[d [E H]] | [d [E H]]].
    + apply (rule_message_inj BundledLibDependency BundledLibDependency)
        in E. destruct E as [_ ->]. now apply filter_In in H.
    + apply (rule_message_inj BundledLibPeer BundledLibDependency) in E.
      destruct E as [E _]. discriminate E.
  - intros H. left. exists dep. split; [reflexivity | now apply filter_In].
  - intros [[d [E H]] | [d [E H]]].
    + apply (rule_message_inj BundledLibDependency BundledLibPeer) in E.
      destruct E as [E _]. discriminate E.
    + apply (rule_message_inj BundledLibPeer BundledLibPeer) in E.
      destruct E as [_ ->]. now apply filter_In in H.
  - intros H. right. exists dep. split; [reflexivity | now apply filter_In].
Qed.

Lemma bundled_lib_reports_each_internal_entry_witness :
  (In (dependency_in_bundled_lib "@tscircuit/props")
      (errors (check_manifest sample_manifest bundled_lib_options))
   <-> In "@tscircuit/props"%string
          (keys (or_empty (dependencies sample_manifest)))
       /\ internal_and_checked bundled_lib_options "@tscircuit/props" = true)
  /\ (In (peer_in_bundled_lib "@tscircuit/props")
         (errors (check_manifest sample_manifest bundled_lib_options))
      <-> In "@tscircuit/props"%string
             (keys (or_empty (peerDependencies sample_manifest)))
          /\ internal_and_checked bundled_lib_options "@tscircuit/props"
             = true).
Proof.
  exact (bundled_lib_reports_each_internal_entry
           (file_with "{}") (parses_to sample_manifest) "package.json" "{}"
           sample_manifest bundled_lib_options "@tscircuit/props"
           eq_refl eq_refl eq_refl).
Defined.

(** X4: under ["internal_lib"] with the asterisk flag off, [peerDependencies]
    is not read: two manifests with the same [dependencies] get the same
    result. *)
Theorem peers_unchecked_without_asterisk_flag :
  forall readFileSync JSON_parse path text packageJson
         readFileSync' JSON_parse' path' text' packageJson' options,
    readFileSync path = inr text ->
    JSON_parse text = inr packageJson ->
    readFileSync' path' = inr text' ->
    JSON_parse' text' = inr packageJson' ->
    package_type options = "internal_lib"%string ->
    peer_deps_should_be_asterisk options = false ->
    dependencies packageJson = dependencies packageJson' ->
    checkDependencies readFileSync JSON_parse path options
    = checkDependencies readFileSync' JSON_parse' path' options.
Proof.
  intros rf jp path text pj rf' jp' path' text' pj' o
         Hread Hparse Hread' Hparse' Htype Hflag Hdeps.
  rewrite (checkDependencies_readable rf jp path text pj o Hread Hparse).
  rewrite (checkDependencies_readable rf' jp' path' text' pj' o Hread' Hparse').
  unfold check_package. cbv zeta. now rewrite Htype, Hflag, Hdeps.
Qed.

Lemma peers_unchecked_without_asterisk_flag_witness :
  check_manifest pinned_peer_manifest lenient_internal_lib_options
  = check_manifest external_only_manifest_with_react
                   lenient_internal_lib_options.
Proof.
  exact (peers_unchecked_without_asterisk_flag
           (file_with "{}") (parses_to pinned_peer_manifest)
           "package.json" "{}" pinned_peer_manifest
           (file_with "{}") (parses_to external_only_manifest_with_react)
           "package.json" "{}" external_only_manifest_with_react
           lenient_internal_lib_options
           eq_refl eq_refl eq_refl eq_refl eq_refl eq_refl eq_refl).
Defined.

(** X5: ["bundled_lib"] is at least as strict as ["internal_lib"]: with the
    other options equal, the bundled policy reports at least as many errors
    on every path, and a manifest that passes it passes the internal
    policy. *)
Theorem bundled_lib_at_least_as_strict :
  forall readFileSync JSON_parse path options,
    List.length
      (errors (checkDependencies readFileSync JSON_parse path
                 (with_package_type "internal_lib" options)))
    <= List.length
         (errors (checkDependencies readFileSync JSON_parse path
                    (with_package_type "bundled_lib" options)))
    /\ (success (checkDependencies readFileSync JSON_parse path
                   (with_package_type "bundled_lib" options)) = true ->
        success (checkDependencies readFileSync JSON_parse path
                   (with_package_type "internal_lib" options)) = true).
Proof.
  intros rf jp path o.
  assert (L : List.length
      (errors (checkDependencies rf jp path
                 (with_package_type "internal_lib" o)))
    <= List.length
         (errors (checkDependencies rf jp path
                    (with_package_type "bundled_lib" o)))).
  { unfold checkDependencies. destruct (rf path) as [e | text]; [simpl; lia|].
    destruct (jp text) as [e | pj]; [simpl; lia|].
    change {| success := true; errors := [] |} with fresh_result.
    rewrite !check_package_errors. simpl errors. rewrite !app_nil_l.
    unfold dependency_violations, peer_violations, internal_and_checked.
    cbn [package_type with_package_type peer_deps_should_be_asterisk
         additional_internal_modules].
    change ("internal_lib" =? "internal_lib")%string with true.
    change ("bundled_lib" =? "internal_lib")%string with false.
    change ("bundled_lib" =? "bundled_lib")%string with true.
    cbv iota. rewrite !length_app. apply Nat.add_le_mono.
    - apply violations_length_le. intros d v H. exact H.
    - destruct (peer_deps_should_be_asterisk o); [|simpl; lia].
      apply violations_length_le. intros d v H.
      apply andb_true_iff in H. destruct H as [H1 H3].
      apply andb_true_iff in H1. destruct H1 as [H1 _].
      unfold not_ignored in *. simpl in *. now rewrite H1, H3. }
  split; [exact L|].
  intros Hs. apply success_step in Hs. apply success_step.
  rewrite Hs in L. simpl in L.
  destruct (errors _); [reflexivity | simpl in L; lia].
Qed.

(** X6: extending [ignore_packages] never adds an error: every error
    reported with the longer list is reported with the shorter one. *)
Theorem ignoring_more_reports_no_more :
  forall readFileSync JSON_parse path options ignored more,
    incl (errors (checkDependencies readFileSync JSON_parse path
                    (with_ignore_packages (Some (ignored ++ more)) options)))
         (errors (checkDependencies readFileSync JSON_parse path
                    (with_ignore_packages (Some ignored) options))).
Proof.
  intros rf jp path o ignored more.
  unfold checkDependencies. destruct (rf path) as [e | text];
    [apply incl_refl|].
  destruct (jp text) as [e | pj]; [apply incl_refl|].
  change {| success := true; errors := [] |} with fresh_result.
  rewrite !check_package_errors. simpl errors. rewrite !app_nil_l.
  assert (M : forall d,
             not_ignored (with_ignore_packages (Some (ignored ++ more)) o) d
             = true ->
             not_ignored (with_ignore_packages (Some ignored) o) d = true).
  { unfold not_ignored. simpl. intros d H.
    apply negb_true_iff in H. apply negb_true_iff.
    apply array_includes_not_In. apply array_includes_not_In in H.
    intros Hin. apply H, in_or_app. now left. }
  unfold dependency_violations, peer_violations, internal_and_checked.
  simpl package_type. simpl peer_deps_should_be_asterisk.
  simpl additional_internal_modules.
  destruct (package_type o =? "internal_lib")%string;
    [destruct (peer_deps_should_be_asterisk o)
    | destruct (package_type o =? "bundled_lib")%string];
    try apply incl_refl;
    repeat apply incl_app_app; try apply incl_refl;
    apply violations_incl; intros d v H;
    repeat (apply andb_true_iff in H; destruct H as [H ?]);
    repeat (apply andb_true_iff; split); auto.
Qed.

(** X7: extending [additional_internal_modules] never removes an error:
    every error reported with the shorter list is reported with the longer
    one. *)
Theorem more_internal_modules_report_no_less :
  forall readFileSync JSON_parse path options extra more,
    incl (errors (checkDependencies readFileSync JSON_parse path
                    (with_additional_internal_modules (Some extra) options)))
         (errors (checkDependencies readFileSync JSON_parse path
                    (with_additional_internal_modules
                       (Some (extra ++ more)) options))).
Proof.
  intros rf jp path o extra more.
  unfold checkDependencies. destruct (rf path) as [e | text];
    [apply incl_refl|].
  destruct (jp text) as [e | pj]; [apply incl_refl|].
  change {| success := true; errors := [] |} with fresh_result.
  rewrite !check_package_errors. simpl errors. rewrite !app_nil_l.
  assert (M : forall d, isInternalModule d (Some extra) = true ->
                        isInternalModule d (Some (extra ++ more)) = true).
  { intros d H. apply isInternalModule_true_iff in H.
    apply isInternalModule_true_iff. simpl in *.
    rewrite in_app_iff. tauto. }
  unfold dependency_violations, peer_violations, internal_and_checked.
  simpl package_type. simpl peer_deps_should_be_asterisk.
  simpl additional_internal_modules.
  destruct (package_type o =? "internal_lib")%string;
    [destruct (peer_deps_should_be_asterisk o)
    | destruct (package_type o =? "bundled_lib")%string];
    try apply incl_refl;
    repeat apply incl_app_app; try apply incl_refl;
    apply violations_incl; intros d v H;
    repeat (apply andb_true_iff in H; destruct H as [H ?]);
    repeat (apply andb_true_iff; split); auto.
Qed.

(** X8: an absent [ignore_packages] or [additional_internal_modules] behaves
    as the empty array: the optional call and the default parameter give the
    same result as passing [[]]. *)
Theorem absent_option_arrays_read_as_empty :
  forall readFileSync JSON_parse path options,
    checkDependencies readFileSync JSON_parse path options
    = checkDependencies readFileSync JSON_parse path
        (with_ignore_packages (Some (or_nil (ignore_packages options)))
           (with_additional_internal_modules
              (Some (or_nil (additional_internal_modules options)))
              options)).
Proof.
  intros rf jp path o.
  unfold checkDependencies. destruct (rf path) as [e | text]; [reflexivity|].
  destruct (jp text) as [e | pj]; [reflexivity|].
  change {| success := true; errors := [] |} with fresh_result.
  apply check_package_determined. rewrite !check_package_errors.
  assert (I : forall d,
             isInternalModule d (Some (or_nil (additional_internal_modules o)))
             = isInternalModule d (additional_internal_modules o))
    by (intros d; now destruct (additional_internal_modules o)).
  assert (N : forall d,
             not_ignored
               (with_ignore_packages (Some (or_nil (ignore_packages o)))
                  (with_additional_internal_modules
                     (Some (or_nil (additional_internal_modules o))) o)) d
             = not_ignored o d)
    by (intros d; unfold not_ignored; simpl;
        now destruct (ignore_packages o)).
  unfold dependency_violations, peer_violations, internal_and_checked.
  cbn [package_type with_ignore_packages with_additional_internal_modules
       peer_deps_should_be_asterisk additional_internal_modules].
  f_equal. f_equal.
  - destruct (package_type o =? "internal_lib")%string;
      [|destruct (package_type o =? "bundled_lib")%string];
      try reflexivity;
      apply violations_ext; intros d v _; now rewrite I, N.
  - destruct (package_type o =? "internal_lib")%string;
      [destruct (peer_deps_should_be_asterisk o)
      |destruct (package_type o =? "bundled_lib")%string];
      try reflexivity;
      apply violations_ext; intros d v _; now rewrite I, N.
Qed.

(** X9: each entry of [dependencies] and of [peerDependencies] is reported
    at most once, so a manifest that reads and parses gets at most as many
    errors as the two objects have entries. *)
Theorem at_most_one_error_per_entry :
  forall readFileSync JSON_parse path text packageJson options,
    readFileSync path = inr text ->
    JSON_parse text = inr packageJson ->
    List.length
      (errors (checkDependencies readFileSync JSON_parse path options))
    <= List.length (checked_entries packageJson).
Proof.
  intros rf jp path text pj o Hread Hparse.
  rewrite (checkDependencies_readable rf jp path text pj o Hread Hparse).
  rewrite check_package_errors. simpl errors. rewrite app_nil_l.
  unfold checked_entries. rewrite !length_app.
  unfold dependency_violations, peer_violations.
  apply Nat.add_le_mono.
  - destruct (package_type o =? "internal_lib")%string;
      [|destruct (package_type o =? "bundled_lib")%string];
      try apply violations_length_bound; simpl; lia.
  - destruct (package_type o =? "internal_lib")%string;
      [destruct (peer_deps_should_be_asterisk o)
      |destruct (package_type o =? "bundled_lib")%string];
      try apply violations_length_bound; simpl; lia.
Qed.

Lemma at_most_one_error_per_entry_witness :
  List.length (errors (check_manifest sample_manifest bundled_lib_options))
  <= List.length (checked_entries sample_manifest).
Proof.
  exact (at_most_one_error_per_entry
           (file_with "{}") (parses_to sample_manifest) "package.json" "{}"
           sample_manifest bundled_lib_options eq_refl eq_refl).
Defined.

(** X10: under ["bundled_lib"] no version is read: two manifests whose
    [dependencies] declare the same names in the same order, and likewise
    their [peerDependencies], get the same result. *)
Theorem bundled_lib_reads_no_version :
  forall readFileSync JSON_parse path text packageJson
         readFileSync' JSON_parse' path' text' packageJson' options,
    readFileSync path = inr text ->
    JSON_parse text = inr packageJson ->
    readFileSync' path' = inr text' ->
    JSON_parse' text' = inr packageJson' ->
    package_type options = "bundled_lib"%string ->
    keys (or_empty (dependencies packageJson))
    = keys (or_empty (dependencies packageJson')) ->
    keys (or_empty (peerDependencies packageJson))
    = keys (or_empty (peerDependencies packageJson')) ->
    checkDependencies readFileSync JSON_parse path options
    = checkDependencies readFileSync' JSON_parse' path' options.
Proof.
  intros rf jp path text pj rf' jp' path' text' pj' o
         Hread Hparse Hread' Hparse' Htype Hdeps Hpeers.
  rewrite (checkDependencies_readable rf jp path text pj o Hread Hparse).
  rewrite (checkDependencies_readable rf' jp' path' text' pj' o Hread' Hparse').
  apply check_package_determined. rewrite !check_package_errors.
  unfold dependency_violations, peer_violations. rewrite Htype.
  change ("bundled_lib" =? "internal_lib")%string with false.
  change ("bundled_lib" =? "bundled_lib")%string with true.
  cbv iota. rewrite !violations_keys. now rewrite Hdeps, Hpeers.
Qed.

Lemma bundled_lib_reads_no_version_witness :
  check_manifest sample_manifest bundled_lib_options
  = check_manifest sample_manifest_other_versions bundled_lib_options.
Proof.
  exact (bundled_lib_reads_no_version
           (file_with "{}") (parses_to sample_manifest) "package.json" "{}"
           sample_manifest
           (file_with "{}") (parses_to sample_manifest_other_versions)
           "package.json" "{}" sample_manifest_other_versions
           bundled_lib_options
           eq_refl eq_refl eq_refl eq_refl eq_refl eq_refl eq_refl).
Defined.

(** * Further properties of the classifier *)

Section MarkerFacts.

Local Open Scope string_scope.

Lemma append_associative (a b c : string) : (a ++ b) ++ c = a ++ b ++ c.
Proof. induction a as [|x a IH]; simpl; [reflexivity | now rewrite IH]. Qed.

Lemma includes_split (s p : string) :
  Js.includes s p = true -> exists a b, s = a ++ p ++ b.
Proof.
  induction s as [|c s IH]; cbn [Js.includes]; intros H;
    apply orb_true_iff in H; destruct H as [H | H].
  - apply prefix_split in H. destruct H as [r ->]. now exists "", r.
  - discriminate H.
  - apply prefix_split in H. destruct H as [r ->]. now exists "", r.
  - destruct (IH H) as [a [b ->]]. now exists (String c a), b.
Qed.

Lemma includes_inside (a p b : string) : Js.includes (a ++ p ++ b) p = true.
Proof. apply includes_later, includes_here. Qed.

End MarkerFacts.

(** X11: the marker rule looks anywhere in the name and ignores case: a
    name that has, at any position, a name passing the marker rule is
    internal, whatever stands before and after it and whatever the extra
    list. *)
Theorem name_around_marked_name_is_internal :
  forall (before n after : string) (extra : option (list string)),
    contains_circuit n = true ->
    isInternalModule (before ++ n ++ after)%string extra = true.
Proof.
  intros a n b extra H. apply isInternalModule_true_iff. left.
  unfold contains_circuit in *. apply includes_split in H.
  destruct H as [x [y E]].
  rewrite !toLowerCase_append, E, !append_associative.
  rewrite <- (append_associative (Js.toLowerCase a) x).
  apply includes_inside.
Qed.

Lemma name_around_marked_name_is_internal_witness :
  isInternalModule ("@acme/" ++ "Circuit-Utils" ++ "-fork")%string None = true.
Proof.
  apply (name_around_marked_name_is_internal
           "@acme/" "Circuit-Utils" "-fork" None).
  reflexivity.
Defined.

(** * Properties of the configuration read from the environment *)

Section SplitFacts.

Local Open Scope string_scope.

Variable separator : ascii.

Let sep : string := String separator "".

Lemma split_not_nil (s : string) : JsString.split separator s <> [].
Proof.
  destruct s as [|c s]; simpl; [discriminate|].
  destruct (Ascii.eqb c separator); [discriminate|].
  destruct (JsString.split separator s); discriminate.
Qed.

Lemma split_concat (s : string) :
  String.concat sep (JsString.split separator s) = s.
Proof.
  induction s as [|c s IH]; [reflexivity|]. simpl JsString.split.
  pose proof (split_not_nil s) as Hne.
  destruct (Ascii.eqb c separator) eqn:Ec.
  - apply Ascii.eqb_eq in Ec. subst c.
    destruct (JsString.split separator s) as [|p ps]; [now destruct Hne|].
    change (String.concat sep ("" :: p :: ps))
      with (sep ++ String.concat sep (p :: ps)).
    now rewrite IH.
  - destruct (JsString.split separator s) as [|p ps]; [now destruct Hne|].
    destruct ps as [|q ps].
    + simpl in *. now rewrite IH.
    + change (String.concat sep (String c p :: q :: ps))
        with (String c (p ++ sep ++ String.concat sep (q :: ps))).
      change (String.concat sep (p :: q :: ps))
        with (p ++ sep ++ String.concat sep (q :: ps)) in IH.
      now rewrite IH.
Qed.

Lemma split_pieces_lack_separator (s : string) :
  Forall (fun piece => JsString.lacks separator piece = true)
         (JsString.split separator s).
Proof.
  induction s as [|c s IH]; simpl.
  - now constructor.
  - destruct (Ascii.eqb c separator) eqn:Ec.
    + constructor; [reflexivity | exact IH].
    + destruct (JsString.split separator s) as [|p ps].
      * constructor; [simpl; now rewrite Ec | constructor].
      * inversion IH as [|? ? Hp Hps]; subst.
        constructor; [simpl; now rewrite Ec, Hp | exact Hps].
Qed.

Lemma split_piece_then_rest (piece rest : string) :
  JsString.lacks separator piece = true ->
  JsString.split separator (piece ++ sep ++ rest)
  = piece :: JsString.split separator rest.
Proof.
  induction piece as [|c piece IH]; simpl; intros H.
  - now rewrite Ascii.eqb_refl.
  - apply andb_true_iff in H. destruct H as [Hc Hp].
    apply negb_true_iff in Hc. rewrite Hc.
    specialize (IH Hp). simpl in IH. now rewrite IH.
Qed.

Lemma split_single_piece (piece : string) :
  JsString.lacks separator piece = true ->
  JsString.split separator piece = [piece].
Proof.
  induction piece as [|c piece IH]; simpl; intros H; [reflexivity|].
  apply andb_true_iff in H. destruct H as [Hc Hp].
  apply negb_true_iff in Hc. rewrite Hc. now rewrite (IH Hp).
Qed.

Lemma split_of_concat (pieces : list string) :
  pieces <> [] ->
  Forall (fun piece => JsString.lacks separator piece = true) pieces ->
  JsString.split separator (String.concat sep pieces) = pieces.
Proof.
  induction pieces as [|p ps IH]; intros Hne Hall; [now destruct Hne|].
  inversion Hall as [|? ? Hp Hps]; subst.
  destruct ps as [|q ps].
  - simpl. now apply split_single_piece.
  - change (String.concat sep (p :: q :: ps))
      with (p ++ sep ++ String.concat sep (q :: ps)).
    rewrite (split_piece_then_rest _ _ Hp). f_equal.
    apply IH; [discriminate | exact Hps].
Qed.

End SplitFacts.

Section TrimFacts.

Local Open Scope string_scope.

Lemma trimStart_from_drop (s : string) (k : nat) :
  JsString.trimStart_from k s = JsString.trimStart (JsString.drop k s).
Proof.
  revert k; induction s as [|c s IH]; intros [|k]; try reflexivity.
  simpl. apply IH.
Qed.

Lemma trimStart_skip (s : string) (k : nat) :
  JsString.white_length s = S k ->
  JsString.trimStart s = JsString.trimStart (JsString.drop (S k) s).
Proof.
  destruct s as [|c s]; intros H; [discriminate H|].
  unfold JsString.trimStart at 1. cbn [JsString.trimStart_from].
  rewrite H. exact (trimStart_from_drop s k).
Qed.

Lemma trimStart_stop (s : string) :
  JsString.white_length s = 0 -> JsString.trimStart s = s.
Proof.
  destruct s as [|c s]; intros H; [reflexivity|].
  unfold JsString.trimStart. cbn [JsString.trimStart_from]. now rewrite H.
Qed.

Lemma white_length_bound (s : string) :
  JsString.white_length s <= String.length s.
Proof.
  destruct s as [|a [|b [|c s]]]; cbn -[N.leb N.eqb];
    repeat match goal with |- context [if ?b then _ else _] => destruct b end;
    lia.
Qed.

Lemma white_length_append (a b : string) :
  JsString.white_length a <> 0 ->
  JsString.white_length (a ++ b) = JsString.white_length a.
Proof.
  destruct a as [|x [|y [|z a]]]; cbn -[N.leb N.eqb]; intros H;
    try (now destruct H);
    repeat match goal with
           | |- context [if ?c then _ else _] => destruct c
           | H : context [if ?c then _ else _] |- _ => destruct c
           end;
    try reflexivity; try (now destruct H);
    destruct b as [|b1 [|b2 b]]; cbn -[N.leb N.eqb];
    repeat match goal with |- context [if ?c then _ else _] => destruct c end;
    try reflexivity; now destruct H.
Qed.

Lemma drop_length (s : string) (k : nat) :
  String.length (JsString.drop k s) = String.length s - k.
Proof.
  revert k; induction s as [|c s IH]; intros [|k]; simpl; try reflexivity.
  apply IH.
Qed.

Lemma drop_append (a b : string) (k : nat) :
  k <= String.length a ->
  JsString.drop k (a ++ b) = JsString.drop k a ++ b.
Proof.
  revert k; induction a as [|c a IH]; intros [|k] H; simpl in *;
    try reflexivity; try lia.
  apply IH. lia.
Qed.

(** After [trimStart] no white space stands at the head. *)
Lemma trimStart_settles (s : string) :
  JsString.white_length (JsString.trimStart s) = 0.
Proof.
  remember (String.length s) as n eqn:En.
  revert s En. induction n as [n IH] using lt_wf_ind. intros s En.
  destruct (JsString.white_length s) as [|k] eqn:W.
  - now rewrite (trimStart_stop s W).
  - rewrite (trimStart_skip s k W).
    apply (IH (String.length (JsString.drop (S k) s))); [|reflexivity].
    rewrite drop_length. pose proof (white_length_bound s). lia.
Qed.

Lemma trimStart_idempotent (s : string) :
  JsString.trimStart (JsString.trimStart s) = JsString.trimStart s.
Proof. apply trimStart_stop, trimStart_settles. Qed.

(** White space in front of a text does not change what [trimStart]
    leaves. *)
Lemma trimStart_after_white (a b : string) :
  JsString.all_white a = true ->
  JsString.trimStart (a ++ b) = JsString.trimStart b.
Proof.
  remember (String.length a) as n eqn:En.
  revert a En. induction n as [n IH] using lt_wf_ind. intros a En Ha.
  destruct a as [|c a']; [reflexivity|].
  set (a := String c a') in *.
  destruct (JsString.white_length a) as [|k] eqn:W.
  - unfold JsString.all_white in Ha. rewrite (trimStart_stop a W) in Ha.
    discriminate Ha.
  - assert (Wab : JsString.white_length (a ++ b) = S k)
      by (rewrite white_length_append; [exact W | rewrite W; discriminate]).
    pose proof (white_length_bound a) as Hb. rewrite W in Hb.
    rewrite (trimStart_skip _ k Wab), (drop_append a b (S k) Hb).
    apply (IH (String.length (JsString.drop (S k) a))); [|reflexivity|].
    + rewrite drop_length. subst n. lia.
    + unfold JsString.all_white in *.
      now rewrite <- (trimStart_skip a k W).
Qed.

(** [trimEnd] cuts white space off the end and nothing else. *)
Lemma trimEnd_cuts_white (s : string) :
  exists w, s = JsString.trimEnd s ++ w /\ JsString.all_white w = true.
Proof.
  induction s as [|c s [w [E Hw]]].
  - now exists "".
  - cbn [JsString.trimEnd].
    destruct (JsString.all_white (String c s)) eqn:A.
    + now exists (String c s).
    + exists w. split; [simpl; now rewrite <- E | exact Hw].
Qed.

Lemma trimEnd_idempotent (s : string) :
  JsString.trimEnd (JsString.trimEnd s) = JsString.trimEnd s.
Proof.
  induction s as [|c s IH]; [reflexivity|].
  cbn [JsString.trimEnd].
  destruct (JsString.all_white (String c s)) eqn:A; [reflexivity|].
  cbn [JsString.trimEnd]. rewrite IH.
  destruct (JsString.all_white (String c (JsString.trimEnd s))) eqn:B;
    [|reflexivity].
  exfalso. destruct (trimEnd_cuts_white s) as [w [E Hw]].
  assert (T : JsString.trimStart (String c s) = JsString.trimStart w).
  { rewrite E at 1.
    change (String c (JsString.trimEnd s ++ w))
      with (String c (JsString.trimEnd s) ++ w).
    now apply trimStart_after_white. }
  unfold JsString.all_white in A, Hw. rewrite T in A.
  destruct (JsString.trimStart w); discriminate.
Qed.

Lemma trim_idempotent (s : string) :
  JsString.trim (JsString.trim s) = JsString.trim s.
Proof.
  unfold JsString.trim.
  assert (H : JsString.trimStart (JsString.trimEnd (JsString.trimStart s))
              = JsString.trimEnd (JsString.trimStart s)).
  { apply trimStart_stop.
    pose proof (trimStart_settles s) as W0.
    destruct (trimEnd_cuts_white (JsString.trimStart s)) as [w [E _]].
    destruct (JsString.white_length
                (JsString.trimEnd (JsString.trimStart s))) eqn:W;
      [reflexivity|].
    rewrite E in W0. rewrite white_length_append in W0; congruence. }
  rewrite H. apply trimEnd_idempotent.
Qed.

Lemma trimStart_from_lacks (c : ascii) (s : string) (k : nat) :
  JsString.lacks c s = true ->
  JsString.lacks c (JsString.trimStart_from k s) = true.
Proof.
  revert k; induction s as [|x s IH]; intros k H; [reflexivity|].
  assert (Hs : JsString.lacks c s = true)
    by (simpl in H; now apply andb_true_iff in H).
  cbn [JsString.trimStart_from]. destruct k as [|k]; [|now apply IH].
  destruct (JsString.white_length (String x s)); [exact H | now apply IH].
Qed.

Lemma trimEnd_lacks (c : ascii) (s : string) :
  JsString.lacks c s = true -> JsString.lacks c (JsString.trimEnd s) = true.
Proof.
  induction s as [|x s IH]; intros H; [reflexivity|].
  cbn [JsString.trimEnd].
  destruct (JsString.all_white (String x s)); [reflexivity|].
  simpl in *. apply andb_true_iff in H. destruct H as [Hx Hs].
  now rewrite Hx, (IH Hs).
Qed.

Lemma trim_lacks (c : ascii) (s : string) :
  JsString.lacks c s = true -> JsString.lacks c (JsString.trim s) = true.
Proof.
  intros H. apply trimEnd_lacks. now apply trimStart_from_lacks.
Qed.

End TrimFacts.

Lemma split_length (separator : ascii) (s : string) :
  List.length (JsString.split separator s)
  = S (JsString.occurrences separator s).
Proof.
  induction s as [|c s IH]; [reflexivity|]. simpl.
  destruct (Ascii.eqb c separator); simpl; [now rewrite IH|].
  destruct (JsString.split separator s); simpl in *; [discriminate IH|].
  exact IH.
Qed.

(** X12: a list input that is unset or empty gives the empty list; any
    other value gives one entry more than it has commas, so a doubled or a
    trailing comma adds an entry. *)
Theorem list_input_length :
  forall value : option string,
    (list_input value = [] <-> value = None \/ value = Some ""%string)
    /\ forall s, value = Some s -> s <> ""%string ->
         List.length (list_input value) = S (JsString.occurrences "," s).
Proof.
  intros value. split.
  - split.
    + destruct value as [[|c s]|]; auto. unfold list_input. simpl Js.or_default.
      intros H. apply map_eq_nil in H.
      now destruct (split_not_nil "," (String c s)).
    + intros [-> | ->]; reflexivity.
  - intros s -> Hne. destruct s as [|c s]; [now destruct Hne|].
    change (list_input (Some (String c s)))
      with (map JsString.trim (JsString.split "," (String c s))).
    now rewrite length_map, split_length.
Qed.

(** X13: every entry of a list input is trimmed, so that trimming it again
    changes nothing, and holds no comma. *)
Theorem list_input_entries_are_trimmed :
  forall (value : option string) (entry : string),
    In entry (list_input value) ->
    JsString.trim entry = entry /\ JsString.lacks "," entry = true.
Proof.
  intros value entry H. unfold list_input in H.
  destruct (Js.or_default value "") as [|c s]; [destruct H|].
  apply in_map_iff in H. destruct H as [piece [<- Hin]]. split.
  - apply trim_idempotent.
  - apply trim_lacks.
    pose proof (split_pieces_lack_separator "," (String c s)) as Hall.
    rewrite Forall_forall in Hall. now apply Hall.
Qed.

Lemma list_input_entries_are_trimmed_witness :
  JsString.trim "another-internal-lib" = "another-internal-lib"%string
  /\ JsString.lacks "," "another-internal-lib" = true.
Proof.
  apply (list_input_entries_are_trimmed
           (Some "my-internal-lib, another-internal-lib "%string)).
  right. left. reflexivity.
Defined.

(** X14: reading a list input inverts joining with commas, up to the white
    space around each piece: when no piece holds a comma and the joined text
    is not empty, the entries are the pieces, trimmed, in order. *)
Theorem list_input_of_joined_pieces :
  forall pieces : list string,
    Forall (fun piece => JsString.lacks "," piece = true) pieces ->
    String.concat "," pieces <> ""%string ->
    list_input (Some (String.concat "," pieces)) = map JsString.trim pieces.
Proof.
  intros pieces Hall Hne.
  destruct (String.concat "," pieces) as [|c s] eqn:E; [now destruct Hne|].
  change (list_input (Some (String c s)))
    with (map JsString.trim (JsString.split "," (String c s))).
  rewrite <- E. f_equal.
  apply (split_of_concat ","); [|exact Hall].
  intros ->. discriminate E.
Qed.

Lemma list_input_of_joined_pieces_witness :
  list_input (Some "my-internal-lib, another-internal-lib"%string)
  = ["my-internal-lib"; "another-internal-lib"]%string.
Proof.
  apply (list_input_of_joined_pieces
           ["my-internal-lib"; " another-internal-lib"]%string).
  - repeat constructor.
  - discriminate.
Defined.

(** * Properties of [main] *)

Section MainFacts.

Variable readFileSync : string -> Js.Error + string.
Variable JSON_parse : string -> Js.Error + PackageJson.
Variable path_join : string -> string -> string.
Variable JSON_stringify : CheckOptions -> string.

Let run := main readFileSync JSON_parse path_join JSON_stringify.

Lemma options_ignore_asterisk_input (env env' : Js.Env) :
  (forall name, name <> "INPUT_PEER_DEPS_SHOULD_BE_ASTERISK"%string ->
                env name = env' name) ->
  options_of_env env = options_of_env env'
  /\ forall cwd, workspaceDir env cwd = workspaceDir env' cwd.
Proof.
  intros H.
  assert (E1 : env "INPUT_PACKAGE_TYPE"%string
               = env' "INPUT_PACKAGE_TYPE"%string)
    by (apply H; discriminate).
  assert (E2 : env "INPUT_ADDITIONAL_INTERNAL_MODULES"%string
               = env' "INPUT_ADDITIONAL_INTERNAL_MODULES"%string)
    by (apply H; discriminate).
  assert (E3 : env "INPUT_IGNORE_PACKAGES"%string
               = env' "INPUT_IGNORE_PACKAGES"%string)
    by (apply H; discriminate).
  assert (E4 : env "GITHUB_WORKSPACE"%string = env' "GITHUB_WORKSPACE"%string)
    by (apply H; discriminate).
  split.
  - unfold options_of_env, packageType, additionalInternalModules,
      ignorePackages.
    now rewrite E1, E2, E3, !peerDepsAsterisk_always.
  - intros cwd. unfold workspaceDir. now rewrite E4.
Qed.

Lemma main_status_zero (env : Js.Env) (cwd : Js.Error + string) :
  status (run env cwd) = 0 <->
  exists dir,
    workspaceDir env cwd = inr dir
    /\ errors (checkDependencies readFileSync JSON_parse
                 (path_join dir "package.json") (options_of_env env)) = [].
Proof.
  unfold run, main.
  destruct (workspaceDir env cwd) as [e | dir].
  - simpl. split; [discriminate | intros [dir [H _]]; discriminate H].
  - pose proof (success_step readFileSync JSON_parse
                  (path_join dir "package.json") (options_of_env env)) as S.
    destruct (success (checkDependencies readFileSync JSON_parse
                         (path_join dir "package.json") (options_of_env env)));
      simpl; split.
    + intros _. exists dir. split; [reflexivity | now apply S].
    + reflexivity.
    + discriminate.
    + intros [dir' [E H]]. injection E as <-. apply S in H. discriminate H.
Qed.

End MainFacts.

(** X15: [main] ends with status 0 exactly when the workspace directory is
    known and the checker finds no error in its [package.json]; in every
    other run the status is 1. *)
Theorem main_exit_status :
  forall readFileSync JSON_parse path_join JSON_stringify env cwd,
    (status (main readFileSync JSON_parse path_join JSON_stringify env cwd) = 0
     <-> exists dir,
           workspaceDir env cwd = inr dir
           /\ errors (checkDependencies readFileSync JSON_parse
                        (path_join dir "package.json") (options_of_env env))
              = [])
    /\ (status (main readFileSync JSON_parse path_join JSON_stringify env cwd)
        = 0
        \/ status (main readFileSync JSON_parse path_join JSON_stringify
                     env cwd) = 1).
Proof.
  intros rf jp pj js env cwd. split; [apply main_status_zero|].
  unfold main. destruct (workspaceDir env cwd); [now right|].
  destruct (negb _); [now right | now left].
Qed.

(** X16: the input [INPUT_PEER_DEPS_SHOULD_BE_ASTERISK] has no effect on a
    run: two environments that agree on every other variable give the same
    output and the same exit status. *)
Theorem main_ignores_asterisk_input :
  forall readFileSync JSON_parse path_join JSON_stringify env env' cwd,
    (forall name, name <> "INPUT_PEER_DEPS_SHOULD_BE_ASTERISK"%string ->
                  env name = env' name) ->
    main readFileSync JSON_parse path_join JSON_stringify env cwd
    = main readFileSync JSON_parse path_join JSON_stringify env' cwd.
Proof.
  intros rf jp pj js env env' cwd H.
  destruct (options_ignore_asterisk_input env env' H) as [Eo Ew].
  unfold main. now rewrite Eo, Ew.
Qed.

Lemma main_ignores_asterisk_input_witness :
  main (file_with "{}") (parses_to pinned_peer_manifest)
       join_with_slash show_package_type
       (env_of [("INPUT_PEER_DEPS_SHOULD_BE_ASTERISK", "false")]%string)
       (inr "/repo"%string)
  = main (file_with "{}") (parses_to pinned_peer_manifest)
         join_with_slash show_package_type (env_of []) (inr "/repo"%string).
Proof.
  apply (main_ignores_asterisk_input
           (file_with "{}") (parses_to pinned_peer_manifest)
           join_with_slash show_package_type).
  intros name H. simpl. apply String.eqb_neq in H. now rewrite H.
Defined.

(** X17: when [GITHUB_WORKSPACE] is set and not empty, the current
    directory is not consulted: the run is the same whatever [process.cwd]
    would return or throw. *)
Theorem main_prefers_workspace_variable :
  forall readFileSync JSON_parse path_join JSON_stringify env dir cwd cwd',
    env "GITHUB_WORKSPACE"%string = Some dir ->
    dir <> ""%string ->
    main readFileSync JSON_parse path_join JSON_stringify env cwd
    = main readFileSync JSON_parse path_join JSON_stringify env cwd'.
Proof.
  intros rf jp pj js env dir cwd cwd' H Hne.
  unfold main, workspaceDir. rewrite H.
  destruct dir; [now destruct Hne | reflexivity].
Qed.

Lemma main_prefers_workspace_variable_witness :
  main (file_with "{}") (parses_to sample_manifest)
       join_with_slash show_package_type
       (env_of [("GITHUB_WORKSPACE", "/github/workspace")]%string)
       (inr "/home/runner"%string)
  = main (file_with "{}") (parses_to sample_manifest)
         join_with_slash show_package_type
         (env_of [("GITHUB_WORKSPACE", "/github/workspace")]%string)
         (inl (Js.mkError "ENOENT: no such file or directory, uv_cwd")).
Proof.
  apply (main_prefers_workspace_variable
           (file_with "{}") (parses_to sample_manifest)
           join_with_slash show_package_type
           (env_of [("GITHUB_WORKSPACE", "/github/workspace")]%string)
           "/github/workspace").
  - reflexivity.
  - discriminate.
Defined.

(** X18: a package type that is not empty and is neither ["internal_lib"]
    nor ["bundled_lib"] makes the run pass on every manifest that reads and
    parses: [main] writes the options and the success line, and ends with
    status 0. *)
Theorem main_passes_on_unknown_package_type :
  forall readFileSync JSON_parse path_join JSON_stringify env cwd
         type dir text packageJson,
    env "INPUT_PACKAGE_TYPE"%string = Some type ->
    type <> ""%string ->
    type <> "internal_lib"%string ->
    type <> "bundled_lib"%string ->
    workspaceDir env cwd = inr dir ->
    readFileSync (path_join dir "package.json") = inr text ->
    JSON_parse text = inr packageJson ->
    main readFileSync JSON_parse path_join JSON_stringify env cwd
    = {| written :=
           [Log ("Checking dependencies with options: "
                 ++ JSON_stringify (options_of_env env));
            Log "✅ All dependency checks passed!"];
         status := 0 |}.
Proof.
  intros rf jp pj js env cwd type dir text m Henv Hne Hint Hbun Hdir
         Hread Hparse.
  unfold main. rewrite Hdir.
  rewrite (checkDependencies_readable rf jp _ text m _ Hread Hparse).
  assert (T : package_type (options_of_env env) = type).
  { simpl. unfold packageType. rewrite Henv.
    destruct type; [now destruct Hne | reflexivity]. }
  unfold check_package. cbv zeta. rewrite T.
  apply String.eqb_neq in Hint, Hbun. now rewrite Hint, Hbun.
Qed.

Lemma main_passes_on_unknown_package_type_witness :
  main (file_with "{}") (parses_to sample_manifest)
       join_with_slash show_package_type
       (env_of [("INPUT_PACKAGE_TYPE", "internal-lib")]%string)
       (inr "/repo"%string)
  = {| written :=
         [Log "Checking dependencies with options: { package_type: internal-lib }";
          Log "✅ All dependency checks passed!"];
       status := 0 |}.
Proof.
  apply (main_passes_on_unknown_package_type
           (file_with "{}") (parses_to sample_manifest)
           join_with_slash show_package_type
           (env_of [("INPUT_PACKAGE_TYPE", "internal-lib")]%string)
           (inr "/repo"%string) "internal-lib" "/repo" "{}" sample_manifest).
  - reflexivity.
  - discriminate.
  - discriminate.
  - discriminate.
  - reflexivity.
  - reflexivity.
  - reflexivity.
Defined.

(** X19: when the manifest of the workspace cannot be read, [main] writes
    the options, the failure header and one line with the read error, and
    ends with status 1, whatever the package type. *)
Theorem main_fails_on_unreadable_manifest :
  forall readFileSync JSON_parse path_join JSON_stringify env cwd dir error,
    workspaceDir env cwd = inr dir ->
    readFileSync (path_join dir "package.json") = inl error ->
    main readFileSync JSON_parse path_join JSON_stringify env cwd
    = {| written :=
           [Log ("Checking dependencies with options: "
                 ++ JSON_stringify (options_of_env env));
            LogError "❌ Dependency check failed:";
            LogError ("  - Error reading or parsing package.json: "
                      ++ Js.message error)];
         status := 1 |}.
Proof.
  intros rf jp pj js env cwd dir error Hdir Hread.
  unfold main. rewrite Hdir.
  rewrite (checkDependencies_failed rf jp _ error _ (or_introl Hread)).
  reflexivity.
Qed.

Lemma main_fails_on_unreadable_manifest_witness :
  main no_such_file rejects_all join_with_slash show_package_type
       (env_of [("INPUT_PACKAGE_TYPE", "application")]%string)
       (inr "/repo"%string)
  = {| written :=
         [Log "Checking dependencies with options: { package_type: application }";
          LogError "❌ Dependency check failed:";
          LogError "  - Error reading or parsing package.json: ENOENT: no such file or directory, open '/repo/package.json'"];
       status := 1 |}.
Proof.
  apply (main_fails_on_unreadable_manifest
           no_such_file rejects_all join_with_slash show_package_type
           (env_of [("INPUT_PACKAGE_TYPE", "application")]%string)
           (inr "/repo"%string) "/repo"
           (Js.mkError "ENOENT: no such file or directory, open '/repo/package.json'")).
  - reflexivity.
  - reflexivity.
Defined.
